(** * Automatic mixed-precision notebook (amp_cn.ipynb): call sequencing

    The notebook authors two timing helpers, the [SimpleNet] class and four
    training cells.  Everything else is a call into the host framework or
    a Python builtin.  The authored code is embedded as programs over a
    signature of such calls; the framework is an arbitrary handler of the
    signature, and the properties are about the calls a program makes, the
    values it passes and the module-level variable [start_time]. *)

From stdpp Require Import base option list strings pretty gmap.
From Stdlib Require Import ZArith QArith Lia.

Set Implicit Arguments.
Local Open Scope string_scope.
Local Open Scope list_scope.
Local Open Scope Z_scope.

(** ** The host: Python floats and framework objects *)

(** The objects handed out by the framework are opaque to the notebook,
    and so is float arithmetic: [fsub] is float subtraction and [fmt3] is
    ["{:.3f}".format]. *)
Class Host := {
  float : Type;
  fsub : float → float → float;
  fmt3 : float → string;
  Tensor : Type;
  LinearLayer : Type;
  ReLULayer : Type;
  LossFn : Type;
  Params : Type;
  Optimizer : Type;
  Scaler : Type;
  AmpGuard : Type;
}.

(** Python exceptions.  [TypeError] and [NameError] arise in the
    interpreter itself, [FrameworkError] stands for whatever a framework
    call raises. *)
Inductive exn : Type :=
  | TypeError
  | NameError (name : string)
  | FrameworkError (code : N).

Section Notebook.
Context `{host : Host}.

(** Values a module-level name can hold, as far as the timing helpers look
    at them. *)
Inductive pyval : Type :=
  | VNone
  | VFloat (f : float)
  | VStr (s : string).

(** [a - b] with [a] a float. *)
Definition float_sub (a : float) (b : pyval) : exn + float :=
  match b with
  | VFloat b => inr (fsub a b)
  | VNone | VStr _ => inl TypeError
  end.

(** An instance of [SimpleNet]: the five attributes [__init__] sets. *)
Record SimpleNet : Type := {
  linear1 : LinearLayer;
  relu1 : ReLULayer;
  linear2 : LinearLayer;
  relu2 : ReLULayer;
  linear3 : LinearLayer;
}.

(** Keyword arguments of [paddle.amp.auto_cast].  The outer [option] is
    "keyword not passed"; the inner one of the two lists is Python's
    [None]. *)
Record auto_cast_args : Type := {
  enable : option bool;
  custom_white_list : option (option (list string));
  custom_black_list : option (option (list string));
  level : option string;
}.

Definition no_args : auto_cast_args :=
  {| enable := None; custom_white_list := None;
     custom_black_list := None; level := None |}.

(** ** Calls that leave the notebook *)

(** One constructor per call the cells make on the framework, on [time]
    and on [print], indexed by the type of the answer.  [model(data)] is
    such a call ([nn.Layer.__call__], which the class inherits); the
    [forward] it dispatches to is modelled on its own below.
    [guard_enter] and [guard_exit] are the two halves of a [with] block on
    the manager [paddle.amp.auto_cast(...)] returned; [guard_exit] is
    [__exit__(None, None, None)], the leaving of a block that completed.
    [guard_exit_exc] is [__exit__] called with an exception of the block;
    its answer says whether the manager swallows that exception. *)

Inductive api : Type → Type :=
  | time_time : api float
  | print (s : string) : api unit
  | tensor_str (t : Tensor) : api string
  | nn_Layer_init : api unit
  | nn_Linear (in_features out_features : Z) : api LinearLayer
  | nn_ReLU : api ReLULayer
  | linear_call (l : LinearLayer) (x : Tensor) : api Tensor
  | relu_call (r : ReLULayer) (x : Tensor) : api Tensor
  | paddle_randn (shape : Z * Z) : api Tensor
  | nn_MSELoss : api LossFn
  | loss_call (f : LossFn) (input label : Tensor) : api Tensor
  | model_call (m : SimpleNet) (x : Tensor) : api Tensor
  | model_parameters (m : SimpleNet) : api Params
  | optimizer_SGD (learning_rate : Q) (parameters : Params) : api Optimizer
  | tensor_backward (t : Tensor) : api unit
  | optimizer_step (o : Optimizer) : api unit
  | optimizer_clear_grad (o : Optimizer) : api unit
  | amp_GradScaler (init_loss_scaling : Z) : api Scaler
  | amp_auto_cast (args : auto_cast_args) : api AmpGuard
  | guard_enter (g : AmpGuard) : api unit
  | guard_exit (g : AmpGuard) : api unit
  | guard_exit_exc (g : AmpGuard) (e : exn) : api bool
  | scaler_scale (s : Scaler) (loss : Tensor) : api Tensor
  | scaler_minimize (s : Scaler) (o : Optimizer) (scaled : Tensor) : api unit
  | amp_decorate (models : SimpleNet) (optimizers : Optimizer)
      (level : string) (master_weight : option bool)
      (save_dtype : option string) : api (SimpleNet * Optimizer).

(** ** Programs *)

(** Python code as a tree of calls.  [Fault] is an error of an operator
    ([float - None]), [Raise] a [raise] statement, [TryExcept] a
    [try: ... except: ...] block, [With] the body of a [with] statement
    whose manager is already evaluated; what follows the block gets the
    values the body bound, or [None] when the body raised and the manager
    swallowed the exception.  Module-level names live in a dictionary,
    read by [GetGlobal] and written by [SetGlobal]. *)
Inductive prog (R : Type) : Type :=
  | Ret (r : R)
  | Fault (e : exn)
  | Raise (e : exn)
  | Do {X : Type} (c : api X) (k : X → prog R)
  | GetGlobal (name : string) (k : pyval → prog R)
  | SetGlobal (name : string) (v : pyval) (k : prog R)
  | TryExcept {A : Type} (body : prog A) (handler : exn → prog A)
      (k : A → prog R)
  | With {A : Type} (g : AmpGuard) (body : prog A)
      (k : option A → prog R).

Arguments Ret {R} r.
Arguments Fault {R} e.
Arguments Raise {R} e.

Fixpoint bind {A B : Type} (p : prog A) (f : A → prog B) : prog B :=
  match p with
  | Ret a => f a
  | Fault e => Fault e
  | Raise e => Raise e
  | Do c k => Do c (λ x, bind (k x) f)
  | GetGlobal n k => GetGlobal n (λ v, bind (k v) f)
  | SetGlobal n v k => SetGlobal n v (bind k f)
  | TryExcept body h k => TryExcept body h (λ a, bind (k a) f)
  | With g body k => With g body (λ a, bind (k a) f)
  end.

Definition call {X : Type} (c : api X) : prog X := Do c Ret.

(** ** Running a program against a framework *)

(** A framework with internal state [W] answers each call with a value or
    an exception. *)
Definition handler (W : Type) : Type := ∀ X, api X → W → W * (exn + X).

(** A framework none of whose calls raises. *)
Definition total_handler (W : Type) : Type := ∀ X, api X → W → W * X.

Definition lift {W : Type} (th : total_handler W) : handler W :=
  λ X c w, let '(w', x) := th X c w in (w', inr x).

(** One entry of the call log: the call and its answer. *)
Inductive event : Type :=
  | Ev {X : Type} (c : api X) (r : exn + X).

Record outcome (W R : Type) : Type := {
  o_globals : gmap string pyval;
  o_world : W;
  o_trace : list event;
  o_result : exn + R;
}.

Definition emit {W R : Type} (evs : list event) (o : outcome W R)
  : outcome W R :=
  {| o_globals := o_globals o; o_world := o_world o;
     o_trace := evs ++ o_trace o; o_result := o_result o |}.

Definition stop {W R : Type} (g : gmap string pyval) (w : W)
    (evs : list event) (e : exn) : outcome W R :=
  {| o_globals := g; o_world := w; o_trace := evs; o_result := inl e |}.

(** [With] follows Python.  A block that completed is left with
    [guard_exit].  A block that raised is left with [guard_exit_exc]: when
    the manager answers true the exception is swallowed and the program
    goes on after the block, otherwise the exception travels on; an
    exception raised while leaving takes its place. *)
Fixpoint run {W R : Type} (h : handler W) (p : prog R)
    (g : gmap string pyval) (w : W) : outcome W R :=
  match p with
  | Ret r =>
      {| o_globals := g; o_world := w; o_trace := []; o_result := inr r |}
  | Fault e | Raise e => stop g w [] e
  | Do c k =>
      let '(w', r) := h _ c w in
      match r with
      | inl e => stop g w' [Ev c r] e
      | inr x => emit [Ev c r] (run h (k x) g w')
      end
  | GetGlobal n k =>
      match g !! n with
      | None => stop g w [] (NameError n)
      | Some v => run h (k v) g w
      end
  | SetGlobal n v k => run h k (<[n:=v]> g) w
  | TryExcept body hd k =>
      let ob := run h body g w in
      match o_result ob with
      | inr a => emit (o_trace ob) (run h (k a) (o_globals ob) (o_world ob))
      | inl e =>
          let oh := run h (hd e) (o_globals ob) (o_world ob) in
          match o_result oh with
          | inr a =>
              emit (o_trace ob ++ o_trace oh)
                   (run h (k a) (o_globals oh) (o_world oh))
          | inl e' =>
              stop (o_globals oh) (o_world oh) (o_trace ob ++ o_trace oh) e'
          end
      end
  | With m body k =>
      let '(w1, r1) := h _ (guard_enter m) w in
      match r1 with
      | inl e => stop g w1 [Ev (guard_enter m) r1] e
      | inr _ =>
          let ob := run h body g w1 in
          match o_result ob with
          | inr a =>
              let '(w2, r2) := h _ (guard_exit m) (o_world ob) in
              let evs :=
                Ev (guard_enter m) r1
                :: o_trace ob ++ [Ev (guard_exit m) r2] in
              match r2 with
              | inl e' => stop (o_globals ob) w2 evs e'
              | inr _ => emit evs (run h (k (Some a)) (o_globals ob) w2)
              end
          | inl e =>
              let '(w2, r2) := h _ (guard_exit_exc m e) (o_world ob) in
              let evs :=
                Ev (guard_enter m) r1
                :: o_trace ob ++ [Ev (guard_exit_exc m e) r2] in
              match r2 with
              | inl e' => stop (o_globals ob) w2 evs e'
              | inr true => emit evs (run h (k None) (o_globals ob) w2)
              | inr false => stop (o_globals ob) w2 evs e
              end
          end
      end
  end.

#[global] Instance prog_ret : MRet prog := @Ret.
#[global] Instance prog_bind : MBind prog := λ A B f p, bind p f.

(** ** The timing helpers (first code cell) *)

Definition nl : string := String (Ascii.ascii_of_nat 10) "".

(** [start_time = None] at module level. *)
Definition timer_cell : prog unit :=
  SetGlobal "start_time" VNone (Ret tt).

Definition start_timer : prog unit :=
  t ← call time_time;
  SetGlobal "start_time" (VFloat t) (Ret tt).

Definition elapsed_line (d : float) : string :=
  "共计耗时 = " +:+ fmt3 d +:+ " sec".

Definition end_timer_and_print (msg : string) : prog unit :=
  end_time ← call time_time;
  _ ← call (print (nl +:+ msg));
  GetGlobal "start_time" (λ st,
    match float_sub end_time st with
    | inl e => Fault e
    | inr d => call (print (elapsed_line d))
    end).

(** ** SimpleNet (second code cell) *)

Definition SimpleNet_init (input_size output_size : Z) : prog SimpleNet :=
  _ ← call nn_Layer_init;
  l1 ← call (nn_Linear input_size output_size);
  r1 ← call nn_ReLU;
  l2 ← call (nn_Linear input_size output_size);
  r2 ← call nn_ReLU;
  l3 ← call (nn_Linear input_size output_size);
  mret {| linear1 := l1; relu1 := r1; linear2 := l2; relu2 := r2;
          linear3 := l3 |}.

Definition forward (self : SimpleNet) (x : Tensor) : prog Tensor :=
  x ← call (linear_call (linear1 self) x);
  x ← call (relu_call (relu1 self) x);
  x ← call (linear_call (linear2 self) x);
  x ← call (relu_call (relu2 self) x);
  x ← call (linear_call (linear3 self) x);
  mret x.

(** ** Training parameters and data (third code cell) *)

Definition epochs : Z := 5.
Definition input_size : Z := 4096.
Definition output_size : Z := 4096.
Definition batch_size : Z := 512.
Definition nums_batch : Z := 50.

(** [[p for _ in range(n)]] *)
Fixpoint comprehension {A : Type} (n : nat) (p : prog A) : prog (list A) :=
  match n with
  | O => mret []
  | S n => x ← p; xs ← comprehension n p; mret (x :: xs)
  end.

Definition setup_cell : prog (list Tensor * list Tensor * LossFn) :=
  train_data ← comprehension (Z.to_nat nums_batch)
                  (call (paddle_randn (batch_size, input_size)));
  labels ← comprehension (Z.to_nat nums_batch)
                  (call (paddle_randn (batch_size, output_size)));
  mse ← call nn_MSELoss;
  mret (train_data, labels, mse).

(** ** The training cells *)

(** [for x in l: body], threading the names the body rebinds. *)
Fixpoint for_each {A S : Type} (l : list A) (s : S) (body : A → S → prog S)
  : prog S :=
  match l with
  | [] => mret s
  | x :: l => s ← body x s; for_each l s body
  end.

Definition range (n : Z) : list Z := seqZ 0 n.

Fixpoint enumerate_from {A : Type} (i : Z) (l : list A) : list (Z * A) :=
  match l with
  | [] => []
  | x :: l => (i, x) :: enumerate_from (i + 1) l
  end.

Definition enumerate {A : Type} (l : list A) : list (Z * A) :=
  enumerate_from 0 l.

(** [print(loss)] after the loops; [loss] is unbound when no loop body ran
    and no earlier cell bound it. *)
Definition print_loss (loss : option Tensor) : prog unit :=
  match loss with
  | None => Fault (NameError "loss")
  | Some l => s ← call (tensor_str l); call (print s)
  end.

Definition learning_rate : Q := 1 # 10000.

(** In each cell [loss0] is what [loss] is bound to when the cell starts. *)
Definition baseline_cell (train_data labels : list Tensor) (mse : LossFn)
    (loss0 : option Tensor) : prog unit :=
  model ← SimpleNet_init input_size output_size;
  parameters ← call (model_parameters model);
  optimizer ← call (optimizer_SGD learning_rate parameters);
  _ ← start_timer;
  loss ← for_each (range epochs) loss0 (λ epoch loss,
    let datas := zip train_data labels in
    for_each (enumerate datas) loss (λ '(i, (data, label)) _,
      output ← call (model_call model data);
      loss ← call (loss_call mse output label);
      _ ← call (tensor_backward loss);
      _ ← call (optimizer_step optimizer);
      _ ← call (optimizer_clear_grad optimizer);
      mret (Some loss)));
  _ ← print_loss loss;
  end_timer_and_print "默认耗时:".

(** [with paddle.amp.auto_cast(args): output = model(data); loss = ...]
    The result is [None] when the manager swallowed an exception of the
    block. *)
Definition autocast_forward (args : auto_cast_args) (model : SimpleNet)
    (mse : LossFn) (data label : Tensor) : prog (option (Tensor * Tensor)) :=
  guard ← call (amp_auto_cast args);
  With guard
    (output ← call (model_call model data);
     loss ← call (loss_call mse output label);
     mret (output, loss))
    Ret.

(** The [loss] read after the block: the one the block bound, and when the
    block did not get to bind it, the one bound before ([stale]), if
    any. *)
Definition loss_after (block : option (Tensor * Tensor))
    (stale : option Tensor) : prog Tensor :=
  match block, stale with
  | Some (_, loss), _ => mret loss
  | None, Some loss => mret loss
  | None, None => Fault (NameError "loss")
  end.

Definition amp_o1_cell (train_data labels : list Tensor) (mse : LossFn)
    (loss0 : option Tensor) : prog unit :=
  model ← SimpleNet_init input_size output_size;
  parameters ← call (model_parameters model);
  optimizer ← call (optimizer_SGD learning_rate parameters);
  scaler ← call (amp_GradScaler 1024);
  _ ← start_timer;
  loss ← for_each (range epochs) loss0 (λ epoch loss,
    let datas := zip train_data labels in
    for_each (enumerate datas) loss (λ '(i, (data, label)) stale,
      block ← autocast_forward no_args model mse data label;
      loss ← loss_after block stale;
      scaled ← call (scaler_scale scaler loss);
      _ ← call (tensor_backward scaled);
      _ ← call (scaler_minimize scaler optimizer scaled);
      _ ← call (optimizer_clear_grad optimizer);
      mret (Some loss)));
  _ ← print_loss loss;
  end_timer_and_print "使用AMP-O1模式耗时:".

Definition o2_args : auto_cast_args :=
  {| enable := Some true; custom_white_list := Some None;
     custom_black_list := Some None; level := Some "O2" |}.

Definition amp_o2_cell (train_data labels : list Tensor) (mse : LossFn)
    (loss0 : option Tensor) : prog unit :=
  model ← SimpleNet_init input_size output_size;
  parameters ← call (model_parameters model);
  optimizer ← call (optimizer_SGD learning_rate parameters);
  scaler ← call (amp_GradScaler 1024);
  '(model, optimizer) ← call (amp_decorate model optimizer "O2" None None);
  _ ← start_timer;
  loss ← for_each (range epochs) loss0 (λ epoch loss,
    let datas := zip train_data labels in
    for_each (enumerate datas) loss (λ '(i, (data, label)) stale,
      block ← autocast_forward o2_args model mse data label;
      loss ← loss_after block stale;
      scaled ← call (scaler_scale scaler loss);
      _ ← call (tensor_backward scaled);
      _ ← call (scaler_minimize scaler optimizer scaled);
      _ ← call (optimizer_clear_grad optimizer);
      mret (Some loss)));
  _ ← print_loss loss;
  end_timer_and_print "使用AMP-O2模式耗时:".

Definition accumulate_batchs_num : Z := 10.

Definition accumulate_cell (train_data labels : list Tensor) (mse : LossFn)
    (loss0 : option Tensor) : prog unit :=
  model ← SimpleNet_init input_size output_size;
  parameters ← call (model_parameters model);
  optimizer ← call (optimizer_SGD learning_rate parameters);
  scaler ← call (amp_GradScaler 1024);
  _ ← start_timer;
  loss ← for_each (range epochs) loss0 (λ epoch loss,
    let datas := zip train_data labels in
    for_each (enumerate datas) loss (λ '(i, (data, label)) stale,
      block ← autocast_forward no_args model mse data label;
      loss ← loss_after block stale;
      scaled ← call (scaler_scale scaler loss);
      _ ← call (tensor_backward scaled);
      _ ← (if decide ((i + 1) `mod` accumulate_batchs_num = 0)
           then
             _ ← call (scaler_minimize scaler optimizer scaled);
             call (optimizer_clear_grad optimizer)
           else mret tt);
      mret (Some loss)));
  _ ← print_loss loss;
  end_timer_and_print "使用AMP模式耗时:".

(** Sequencing of outcomes: what [p; q] does once [p] has run. *)
Definition andthen {W A B : Type} (o : outcome W A)
    (f : A → gmap string pyval → W → outcome W B) : outcome W B :=
  match o_result o with
  | inl e => stop (o_globals o) (o_world o) (o_trace o) e
  | inr a => emit (o_trace o) (f a (o_globals o) (o_world o))
  end.

(** [post h p g w Q]: from module state [g] and framework state [w], [p]
    runs to completion without an exception, and its result, the module
    state it leaves and its call log satisfy [Q]. *)
Definition post {W R : Type} (h : handler W) (p : prog R)
    (g : gmap string pyval) (w : W)
    (Q : R → gmap string pyval → list event → Prop) : Prop :=
  ∃ r, o_result (run h p g w) = inr r
       ∧ Q r (o_globals (run h p g w)) (o_trace (run h p g w)).

(** ** Reading a call log *)

(** What reaches standard output: [print(s)] writes [s] and a newline. *)
Definition printed (ev : event) : string :=
  match ev with
  | Ev (print s) (inr _) => s +:+ nl
  | _ => ""
  end.

Definition stdout (tr : list event) : string :=
  foldr (λ ev out, printed ev +:+ out) "" tr.

(** The name of a call, without its arguments. *)
Inductive op : Set :=
  | OpTime | OpPrint | OpTensorStr | OpLayerInit | OpLinear | OpReLU
  | OpLinearCall | OpReluCall | OpRandn | OpMSELoss | OpLossCall
  | OpModelCall | OpParameters | OpSGD | OpBackward | OpStep | OpClearGrad
  | OpGradScaler | OpAutoCast | OpEnter | OpExit | OpScale | OpMinimize
  | OpDecorate.

#[global] Instance op_eq_dec : EqDecision op.
Proof. solve_decision. Defined.

Definition op_of_api {X : Type} (c : api X) : op :=
  match c with
  | time_time => OpTime
  | print _ => OpPrint
  | tensor_str _ => OpTensorStr
  | nn_Layer_init => OpLayerInit
  | nn_Linear _ _ => OpLinear
  | nn_ReLU => OpReLU
  | linear_call _ _ => OpLinearCall
  | relu_call _ _ => OpReluCall
  | paddle_randn _ => OpRandn
  | nn_MSELoss => OpMSELoss
  | loss_call _ _ _ => OpLossCall
  | model_call _ _ => OpModelCall
  | model_parameters _ => OpParameters
  | optimizer_SGD _ _ => OpSGD
  | tensor_backward _ => OpBackward
  | optimizer_step _ => OpStep
  | optimizer_clear_grad _ => OpClearGrad
  | amp_GradScaler _ => OpGradScaler
  | amp_auto_cast _ => OpAutoCast
  | guard_enter _ => OpEnter
  | guard_exit _ => OpExit
  | guard_exit_exc _ _ => OpExit
  | scaler_scale _ _ => OpScale
  | scaler_minimize _ _ _ => OpMinimize
  | amp_decorate _ _ _ _ _ => OpDecorate
  end.

Definition op_of (ev : event) : op :=
  match ev with Ev c _ => op_of_api c end.

(** The exceptions raised by the calls of a log, in order. *)
Definition failure (ev : event) : option exn :=
  match ev with
  | Ev _ (inl e) => Some e
  | Ev _ (inr _) => None
  end.

Definition failures (tr : list event) : list exn := omap failure tr.

(** The losses computed by the calls of a log, in order. *)
Definition computed_loss (ev : event) : option Tensor :=
  match ev with
  | Ev (loss_call _ _ _) (inr loss) => Some loss
  | _ => None
  end.

Definition computed_losses (tr : list event) : list Tensor :=
  omap computed_loss tr.

(** The tensors [backward] was called on, and the tensors [scale]
    returned. *)
Definition backward_arg (ev : event) : option Tensor :=
  match ev with
  | Ev (tensor_backward t) _ => Some t
  | _ => None
  end.

Definition scale_result (ev : event) : option Tensor :=
  match ev with
  | Ev (scaler_scale _ _) (inr scaled) => Some scaled
  | _ => None
  end.

(** What a training loop leaves in [loss]: the last loss computed. *)
Definition holds_last_loss (s : option Tensor) (tr : list event) : Prop :=
  ∃ loss, s = Some loss ∧ last (computed_losses tr) = Some loss.

Definition count_op (o : op) (tr : list event) : nat :=
  length (filter (λ ev, op_of ev = o) tr).

(** The seven calls every iteration of an AMP loop makes before the
    optimizer is reached. *)
Definition scale_backward_ops : list op :=
  [OpAutoCast; OpEnter; OpModelCall; OpLossCall; OpExit; OpScale;
   OpBackward].

(** The calls of iteration [i] of the gradient-accumulation loop. *)
Definition accumulate_ops (i : Z) : list op :=
  scale_backward_ops
  ++ (if decide ((i + 1) `mod` 10 = 0) then [OpMinimize; OpClearGrad]
      else []).

Definition backward_args (tr : list event) : list Tensor :=
  omap backward_arg tr.

Definition scale_results (tr : list event) : list Tensor :=
  omap scale_result tr.

(** A framework whose layers are functions of their input; other calls are
    answered by [th]. *)
Definition pure_layers {W : Type} (lin : LinearLayer → Tensor → Tensor)
    (act : ReLULayer → Tensor → Tensor) (th : total_handler W)
  : total_handler W :=
  λ X c w,
    match c in api X return W * X with
    | linear_call l x => (w, lin l x)
    | relu_call r x => (w, act r x)
    | c => th _ c w
    end.

(** ** Code without exception handling *)

(** [straight P p]: [p] has no [try] block and no [raise] statement, and
    every call it can make satisfies [P]. *)
Inductive straight (P : op → Prop) : ∀ R : Type, prog R → Prop :=
  | straight_Ret R (r : R) : straight P (Ret r)
  | straight_Fault R (e : exn) : straight P (@Fault R e)
  | straight_Do R X (c : api X) (k : X → prog R) :
      P (op_of_api c) → (∀ x, straight P (k x)) → straight P (Do c k)
  | straight_GetGlobal R n (k : pyval → prog R) :
      (∀ v, straight P (k v)) → straight P (GetGlobal n k)
  | straight_SetGlobal R n v (k : prog R) :
      straight P k → straight P (SetGlobal n v k)
  | straight_With R A (m : AmpGuard) (body : prog A)
      (k : option A → prog R) :
      P OpEnter → P OpExit → straight P body → (∀ a, straight P (k a)) →
      straight P (With m body k).

(** Any call but [paddle.amp.decorate]. *)
Definition not_decorate (o : op) : Prop := o ≠ OpDecorate.

(** A call in which no context manager interferes with an exception: when
    it is the leaving of a [with] block whose body raised, the manager
    neither raises nor swallows the exception. *)
Definition passes_exception (ev : event) : Prop :=
  match ev with
  | Ev c r =>
      match c in api X return exn + X → Prop with
      | guard_exit_exc _ _ =>
          λ r, match r with inr false => True | _ => False end
      | _ => λ _, True
      end r
  end.

#[global] Instance passes_exception_dec (ev : event) :
  Decision (passes_exception ev).
Proof.
  destruct ev as [X c r]. destruct c; simpl; try apply _.
  destruct r as [?|[|]]; apply _.
Defined.

Definition managers_pass (tr : list event) : Prop :=
  Forall passes_exception tr.

(** A log in which exactly one call raised, with exception [e], and only
    the leaving of [with] blocks follows that call. *)
Definition raised_once (e : exn) (tr : list event) : Prop :=
  ∃ pre X (c : api X) post,
    tr = pre ++ Ev c (inl e) :: post
    ∧ failures pre = [] ∧ failures post = []
    ∧ Forall (λ ev, op_of ev = OpExit) post.

(** A run in which an exception raised by a call propagates unchanged:
    the call that raised is the only one that did, its exception is the
    result of the run, and the only calls after it leave [with] blocks. *)
Definition propagates {W R : Type} (o : outcome W R) : Prop :=
  ∀ pre X (c : api X) e post,
    o_trace o = pre ++ Ev c (inl e) :: post →
    o_result o = inl e
    ∧ failures pre = [] ∧ failures post = []
    ∧ Forall (λ ev, op_of ev = OpExit) post.

(** [unhandled p]: [p] contains no [try] and no [raise], and against
    every framework an exception raised by a call propagates unchanged. *)
Definition unhandled {R : Type} (p : prog R) : Prop :=
  straight (λ _, True) p
  ∧ ∀ (W : Type) (h : handler W) g w, propagates (run h p g w).

(** The exception a run ends with, if any. *)
Definition raised {R : Type} (r : exn + R) : option exn :=
  match r with
  | inl e => Some e
  | inr _ => None
  end.

(** A log in which nothing is done with an exception but what a [with]
    statement does: a call that raised is the last call, and its exception
    is [final], or the very next call leaves a [with] block with that
    exception. *)
Definition handed_over (tr : list event) (final : option exn) : Prop :=
  ∀ pre X (c : api X) e post,
    tr = pre ++ Ev c (inl e) :: post →
    match post with
    | [] => final = Some e
    | ev :: _ => ∃ m r, ev = Ev (guard_exit_exc m e) r
    end.

(** [unhandled_in_with p]: the same for code with [with] blocks, where
    Python lets the context manager decide.  Against every framework, [p]
    does nothing with an exception but hand it to the manager of the
    block; and the exception propagates unchanged in every run in which no
    manager raises or swallows when it is left with an exception. *)
Definition unhandled_in_with {R : Type} (p : prog R) : Prop :=
  straight (λ _, True) p
  ∧ ∀ (W : Type) (h : handler W) g w,
      handed_over (o_trace (run h p g w)) (raised (o_result (run h p g w)))
      ∧ (managers_pass (o_trace (run h p g w)) →
         propagates (run h p g w)).

(** ** Sessions of the timing helpers *)

Inductive timer_call : Type :=
  | CallStart
  | CallEnd (msg : string).

#[global] Instance timer_call_eq_dec : EqDecision timer_call.
Proof. solve_decision. Defined.

Definition timer_prog (c : timer_call) : prog unit :=
  match c with
  | CallStart => start_timer
  | CallEnd msg => end_timer_and_print msg
  end.

(** Calls made one after the other at top level; as in a notebook, an
    exception ends the call that raised it and the session goes on. *)
Fixpoint session {W : Type} (h : handler W) (cs : list timer_call)
    (g : gmap string pyval) (w : W) : gmap string pyval * W :=
  match cs with
  | [] => (g, w)
  | c :: cs =>
      let o := run h (timer_prog c) g w in
      session h cs (o_globals o) (o_world o)
  end.

(** ** The calls of one loop iteration *)

Definition baseline_iter (model : SimpleNet) (optimizer : Optimizer)
    (mse : LossFn) (item : Z * (Tensor * Tensor)) (evs : list event) : Prop :=
  ∃ output loss,
    evs = [ Ev (model_call model item.2.1) (inr output);
            Ev (loss_call mse output item.2.2) (inr loss);
            Ev (tensor_backward loss) (inr ());
            Ev (optimizer_step optimizer) (inr ());
            Ev (optimizer_clear_grad optimizer) (inr ()) ].

Definition autocast_events (args : auto_cast_args) (model : SimpleNet)
    (mse : LossFn) (data label : Tensor) (guard : AmpGuard)
    (output loss : Tensor) : list event :=
  [ Ev (amp_auto_cast args) (inr guard);
    Ev (guard_enter guard) (inr ());
    Ev (model_call model data) (inr output);
    Ev (loss_call mse output label) (inr loss);
    Ev (guard_exit guard) (inr ()) ].

Definition scaled_backward_events (scaler : Scaler) (loss scaled : Tensor)
  : list event :=
  [ Ev (scaler_scale scaler loss) (inr scaled);
    Ev (tensor_backward scaled) (inr ()) ].

Definition update_events (scaler : Scaler) (optimizer : Optimizer)
    (scaled : Tensor) : list event :=
  [ Ev (scaler_minimize scaler optimizer scaled) (inr ());
    Ev (optimizer_clear_grad optimizer) (inr ()) ].

Definition amp_iter (args : auto_cast_args) (model : SimpleNet)
    (optimizer : Optimizer) (scaler : Scaler) (mse : LossFn)
    (item : Z * (Tensor * Tensor)) (evs : list event) : Prop :=
  ∃ guard output loss scaled,
    evs = autocast_events args model mse item.2.1 item.2.2 guard output loss
          ++ scaled_backward_events scaler loss scaled
          ++ update_events scaler optimizer scaled.

Definition accumulate_iter (model : SimpleNet) (optimizer : Optimizer)
    (scaler : Scaler) (mse : LossFn) (item : Z * (Tensor * Tensor))
    (evs : list event) : Prop :=
  ∃ guard output loss scaled,
    evs = autocast_events no_args model mse item.2.1 item.2.2 guard output
            loss
          ++ scaled_backward_events scaler loss scaled
          ++ (if decide ((item.1 + 1) `mod` 10 = 0)
              then update_events scaler optimizer scaled else []).

(** The calls up to the start of the timed loop. *)
Definition init_events (i o : Z) (model : SimpleNet) : list event :=
  [ Ev nn_Layer_init (inr ());
    Ev (nn_Linear i o) (inr (linear1 model));
    Ev nn_ReLU (inr (relu1 model));
    Ev (nn_Linear i o) (inr (linear2 model));
    Ev nn_ReLU (inr (relu2 model));
    Ev (nn_Linear i o) (inr (linear3 model)) ].

Definition optimizer_events (model : SimpleNet) (parameters : Params)
    (optimizer : Optimizer) : list event :=
  [ Ev (model_parameters model) (inr parameters);
    Ev (optimizer_SGD (1 # 10000) parameters) (inr optimizer) ].

(** The calls after the loops: [print(loss)] and [end_timer_and_print]. *)
Definition report_events (loss : Tensor) (text : string) (t0 t1 : float)
    (msg : string) : list event :=
  [ Ev (tensor_str loss) (inr text);
    Ev (print text) (inr ());
    Ev time_time (inr t1);
    Ev (print (nl +:+ msg)) (inr ());
    Ev (print ("共计耗时 = " +:+ fmt3 (fsub t1 t0) +:+ " sec")) (inr ()) ].

End Notebook.

(** ** Two frameworks to run the notebook against *)

(** A clock in milliseconds, printed with three decimals. *)
Definition fmt3_ms (ms : Z) : string :=
  let a := Z.abs ms in
  let frac := a `mod` 1000 in
  (if decide (ms < 0) then "-" else "")
  +:+ pretty (a `div` 1000) +:+ "."
  +:+ (if decide (frac < 10) then "00" else
       if decide (frac < 100) then "0" else "")
  +:+ pretty frac.

(** Every framework object is a numbered handle. *)
Definition handle_host : Host := {|
  float := Z; fsub := Z.sub; fmt3 := fmt3_ms;
  Tensor := N; LinearLayer := N; ReLULayer := N; LossFn := N; Params := N;
  Optimizer := N; Scaler := N; AmpGuard := N;
|}.

(** The framework state is the number of calls so far; a call that makes an
    object hands out that number, the clock reads it in seconds, and
    [decorate] gives back the objects it was given. *)
Definition counting : total_handler (host := handle_host) N :=
  λ X c n,
    (N.succ n,
     match c in api X return X with
     | time_time => 1000 * Z.of_N n
     | print _ => ()
     | tensor_str t => "Tensor#" +:+ pretty t
     | nn_Layer_init => ()
     | nn_Linear _ _ => n
     | nn_ReLU => n
     | linear_call _ _ => n
     | relu_call _ _ => n
     | paddle_randn _ => n
     | nn_MSELoss => n
     | loss_call _ _ _ => n
     | model_call _ _ => n
     | model_parameters _ => n
     | optimizer_SGD _ _ => n
     | tensor_backward _ => ()
     | optimizer_step _ => ()
     | optimizer_clear_grad _ => ()
     | amp_GradScaler _ => n
     | amp_auto_cast _ => n
     | guard_enter _ => ()
     | guard_exit _ => ()
     | guard_exit_exc _ _ => false
     | scaler_scale _ _ => n
     | scaler_minimize _ _ _ => ()
     | amp_decorate m o _ _ _ => (m, o)
     end).

(** The same framework with the call numbered [bad] raising. *)
Definition failing_at (bad : N) : handler (host := handle_host) N :=
  λ X c n,
    if decide (n = bad) then (N.succ n, inl (FrameworkError n))
    else lift counting c n.

(** The framework of [failing_at] with context managers that swallow the
    exception they are left with. *)
Definition swallowing_at (bad : N) : handler (host := handle_host) N :=
  λ X c n,
    match c in api X return N * (exn + X) with
    | guard_exit_exc _ _ => (N.succ n, inr true)
    | c => failing_at bad c n
    end.

(** Shapes only: a tensor is its shape [(rows, columns)], a [Linear] layer
    its [(in_features, out_features)].  A [Linear] layer accepts a batch
    whose column count is its [in_features] and yields [out_features]
    columns; any other batch is an error of the framework.  [ReLU] keeps
    the shape. *)
Definition shape_host : Host := {|
  float := Z; fsub := Z.sub; fmt3 := fmt3_ms;
  Tensor := Z * Z; LinearLayer := Z * Z; ReLULayer := unit; LossFn := unit;
  Params := unit; Optimizer := unit; Scaler := unit; AmpGuard := unit;
|}.

Definition linear_shape (l : Z * Z) (x : Z * Z) : exn + Z * Z :=
  if decide (x.2 = l.1) then inr (x.1, l.2) else inl (FrameworkError 0).

Definition shapes : handler (host := shape_host) unit :=
  λ X c w,
    (w,
     match c in api X return exn + X with
     | time_time => inr 0
     | print _ => inr ()
     | tensor_str t => inr ""
     | nn_Layer_init => inr ()
     | nn_Linear i o => inr (i, o)
     | nn_ReLU => inr ()
     | linear_call l x => linear_shape l x
     | relu_call _ x => inr x
     | paddle_randn shape => inr shape
     | nn_MSELoss => inr ()
     | loss_call _ x label =>
         if decide (x = label) then inr (1, 1) else inl (FrameworkError 1)
     | model_call _ x => inr x
     | model_parameters _ => inr ()
     | optimizer_SGD _ _ => inr ()
     | tensor_backward _ => inr ()
     | optimizer_step _ => inr ()
     | optimizer_clear_grad _ => inr ()
     | amp_GradScaler _ => inr ()
     | amp_auto_cast _ => inr ()
     | guard_enter _ => inr ()
     | guard_exit _ => inr ()
     | guard_exit_exc _ _ => inr false
     | scaler_scale _ loss => inr loss
     | scaler_minimize _ _ _ => inr ()
     | amp_decorate m o _ _ _ => inr (m, o)
     end).

(** The data the third cell builds when the framework counts its calls:
    batches 0..49, labels 50..99, the loss function 100. *)
Definition counted_batches : list N := N.of_nat <$> seq 0 50.
Definition counted_labels : list N := N.of_nat <$> seq 50 50.
Definition counted_mse : N := 100%N.

(** The log of the gradient-accumulation cell run after the third cell. *)
Definition counted_accumulation : list (event (host := handle_host)) :=
  o_trace (run (lift counting)
             (accumulate_cell (host := handle_host) counted_batches
                counted_labels counted_mse None) ∅ 101%N).

(** C3 as stated has the optimizer step on every batch: as many calls of
    [scaler.minimize] as of [backward]. *)
Definition steps_on_every_batch `{host : Host} (tr : list event) : Prop :=
  count_op OpMinimize tr = count_op OpBackward tr.

(** The network the counting framework builds first. *)
Definition counted_net : SimpleNet (host := handle_host) :=
  Build_SimpleNet (host := handle_host) 1%N 2%N 3%N 4%N 5%N.

(** A network whose [Linear] layers add their number to the input. *)
Definition adding_net : SimpleNet (host := handle_host) :=
  Build_SimpleNet (host := handle_host) 1%N 0%N 2%N 0%N 3%N.

Definition adding : handler (host := handle_host) N :=
  lift (pure_layers (host := handle_host) N.add (λ _ x, x) counting).

(** The state after one call of [start_timer()] in a fresh module. *)
Definition started : gmap string (pyval (host := handle_host)) * N :=
  session (lift counting) [CallStart] ∅ 0%N.

(** The state after a failed [end_timer_and_print("a")] in a fresh
    module. *)
Definition unstarted : gmap string (pyval (host := handle_host)) * N :=
  session (lift counting) [CallEnd "a"]
    (o_globals (run (lift counting) (timer_cell (host := handle_host)) ∅
                  0%N)) 0%N.

(** The baseline cell against a framework whose call number 20 raises. *)
Definition interrupted_baseline : outcome N () :=
  run (failing_at 20) (baseline_cell (host := handle_host) counted_batches
                         counted_labels counted_mse None) ∅ 0%N.

(** The O1 cell against a framework whose call number 12, the first
    [model(data)], raises. *)
Definition interrupted_amp : outcome N () :=
  run (failing_at 12) (amp_o1_cell (host := handle_host) counted_batches
                         counted_labels counted_mse None) ∅ 0%N.

(** ** More ways to read a log *)

Section Reports.
Context `{host : Host}.

(** The batches [model] was called on and the labels the loss function
    was given, in order. *)
Definition model_input (ev : event) : option Tensor :=
  match ev with
  | Ev (model_call _ x) _ => Some x
  | _ => None
  end.

Definition model_inputs (tr : list event) : list Tensor :=
  omap model_input tr.

Definition loss_label (ev : event) : option Tensor :=
  match ev with
  | Ev (loss_call _ _ label) _ => Some label
  | _ => None
  end.

Definition loss_labels (tr : list event) : list Tensor :=
  omap loss_label tr.

(** The calls a cell makes before it starts the timer: the network and the
    optimizer, then the scaler and [decorate] where the cell has them. *)
Definition construction_ops (scaler decorate : bool) : list op :=
  [OpLayerInit; OpLinear; OpReLU; OpLinear; OpReLU; OpLinear; OpParameters;
   OpSGD]
  ++ (if scaler then [OpGradScaler] else [])
  ++ (if decorate then [OpDecorate] else []).

(** [fails h p g w Q]: [p] ends in an exception, and the exception, the
    module state left and the call log satisfy [Q]. *)
Definition fails {W R : Type} (h : handler W) (p : prog R)
    (g : gmap string pyval) (w : W)
    (Q : exn → gmap string pyval → list event → Prop) : Prop :=
  ∃ e, o_result (run h p g w) = inl e
       ∧ Q e (o_globals (run h p g w)) (o_trace (run h p g w)).

(** What a training cell does when it has no (batch, label) pair: it
    builds its objects, starts the timer and goes straight to
    [print(loss)], which finds [loss] as the cell found it. *)
Definition idle_outcome {W : Type} (ops : list op) (msg : string)
    (loss0 : option Tensor) (g : gmap string pyval) (o : outcome W ())
  : Prop :=
  ∃ pre t0,
    op_of <$> pre = ops ++ [OpTime]
    ∧ last pre = Some (Ev time_time (inr t0))
    ∧ o_globals o !! "start_time" = Some (VFloat t0)
    ∧ match loss0 with
      | None =>
          o_result o = inl (NameError "loss") ∧ o_trace o = pre
      | Some loss =>
          ∃ text t1,
            o_result o = inr ()
            ∧ o_trace o = pre ++ report_events loss text t0 t1 msg
      end.

(** The arguments of the calls of [print] in a log, in order. *)
Definition print_arg (ev : event) : option string :=
  match ev with
  | Ev (print s) _ => Some s
  | _ => None
  end.

Definition prints (tr : list event) : list string := omap print_arg tr.

(** The log of a cell that trained: no call of [print] precedes the
    report, the report is on the last loss computed, and the calls of
    [print] are three: the text of that loss, the message after a line
    break, and the elapsed-time line. *)
Definition reports_last_loss (msg : string) (tr : list event) : Prop :=
  ∃ pre loss text t0 t1,
    tr = pre ++ report_events loss text t0 t1 msg
    ∧ last (computed_losses pre) = Some loss
    ∧ (OpPrint ∉ (op_of <$> pre))
    ∧ prints tr
      = [text; nl +:+ msg;
         "共计耗时 = " +:+ fmt3 (fsub t1 t0) +:+ " sec"].

(** In each of the five epochs the model gets the batches and the loss
    function the labels, both cut to the length of the shorter list. *)
Definition fed_every_pair (train_data labels : list Tensor)
    (tr : list event) : Prop :=
  model_inputs tr = concat (replicate 5 (take (length labels) train_data))
  ∧ loss_labels tr = concat (replicate 5 (take (length train_data) labels)).

(** A run in which a call that raises is the last call made, and its
    exception is the result. *)
Definition halts_on_failure {W R : Type} (o : outcome W R) : Prop :=
  ∀ pre X (c : api X) e post,
    o_trace o = pre ++ Ev c (inl e) :: post →
    post = [] ∧ o_result o = inl e.

(** Any call but the leaving of a [with] block. *)
Definition not_exit (o : op) : Prop := o ≠ OpExit.

(** How many of the batch indexes [l] are followed by an update in the
    gradient-accumulation loop. *)
Definition updates_in (l : list Z) : nat :=
  length (filter (λ i, (i + 1) `mod` 10 = 0) l).

End Reports.

(** The network [SimpleNet(i, o)] as the shape framework builds it. *)
Definition shape_net (i o : Z) : SimpleNet (host := shape_host) :=
  Build_SimpleNet (host := shape_host) (i, o) () (i, o) () (i, o).

(** The gradient-accumulation cell on nine batches. *)
Definition short_accumulation : list (event (host := handle_host)) :=
  o_trace (run (lift counting)
             (accumulate_cell (host := handle_host) (take 9 counted_batches)
                counted_labels counted_mse None) ∅ 101%N).

(** The baseline cell without batches, in a module where [loss] is
    unbound. *)
Definition idle_baseline_run : outcome (host := handle_host) N () :=
  run (lift counting)
    (baseline_cell (host := handle_host) [] counted_labels counted_mse None)
    ∅ 101%N.

(** [end_timer_and_print] after two calls of [start_timer]. *)
Definition restarted_run : outcome (host := handle_host) N () :=
  let s1 := session (lift counting) [CallStart; CallEnd "a"] ∅ 0%N in
  let o1 := run (lift counting) (start_timer (host := handle_host))
              s1.1 s1.2 in
  let s2 := session (lift counting) [CallEnd "b"] (o_globals o1)
              (o_world o1) in
  run (lift counting) (end_timer_and_print "c") s2.1 s2.2.

(** * Properties *)

Section Running.
Context `{host : Host}.

Lemma emit_emit {W R : Type} (a b : list event) (o : outcome W R) :
  emit a (emit b o) = emit (a ++ b) o.
Proof. unfold emit; simpl. by rewrite app_assoc. Qed.

Lemma emit_nil {W R : Type} (o : outcome W R) : emit [] o = o.
Proof. by destruct o. Qed.

Lemma emit_stop {W R : Type} (a b : list event) g (w : W) e :
  emit a (stop g w b e) = stop (R := R) g w (a ++ b) e.
Proof. done. Qed.

Lemma andthen_emit {W A B : Type} (evs : list event) (o : outcome W A)
    (f : A → gmap string pyval → W → outcome W B) :
  andthen (emit evs o) f = emit evs (andthen o f).
Proof.
  unfold andthen; simpl. destruct (o_result o).
  - by rewrite emit_stop.
  - by rewrite emit_emit.
Qed.

Lemma andthen_stop {W A B : Type} g (w : W) evs e
    (f : A → gmap string pyval → W → outcome W B) :
  andthen (stop g w evs e) f = stop g w evs e.
Proof. done. Qed.

(** [run] of a sequence is the sequence of the [run]s. *)
Lemma run_bind {W A B : Type} (h : handler W) (p : prog A) (f : A → prog B)
    g w :
  run h (p ≫= f) g w = andthen (run h p g w) (λ a, run h (f a)).
Proof.
  change (p ≫= f) with (bind p f).
  revert B f g w.
  induction p as [A a|A e|A e|A X c k IH|A n k IH|A n v k IH
                 |A C body IHb hd IHh k IH|A C m body IHb k IH];
    intros B f g w; simpl.
  - unfold andthen; simpl. by rewrite emit_nil.
  - done.
  - done.
  - destruct (h X c w) as [w' [e|x]]; [done|].
    by rewrite IH, andthen_emit.
  - destruct (g !! n); [apply IH | done].
  - apply IH.
  - destruct (o_result (run h body g w)) as [e|a].
    + destruct (o_result (run h (hd e) _ _)) as [e'|a]; [done|].
      by rewrite IH, andthen_emit.
    + by rewrite IH, andthen_emit.
  - destruct (h _ (guard_enter m) w) as [w1 [e|[]]]; [done|].
    destruct (o_result (run h body g w1)) as [e|a].
    + destruct (h _ (guard_exit_exc m e) _) as [w2 [e'|[|]]]; [done| |done].
      by rewrite IH, andthen_emit.
    + destruct (h _ (guard_exit m) _) as [w2 [e'|[]]]; [done|].
      by rewrite IH, andthen_emit.
Qed.

Lemma post_mono {W R : Type} (h : handler W) (p : prog R) g w
    (Q Q' : R → gmap string pyval → list event → Prop) :
  post h p g w Q → (∀ r g' tr, Q r g' tr → Q' r g' tr) → post h p g w Q'.
Proof. intros (r & Hr & HQ) HQQ'. exists r. auto. Qed.

Lemma post_ret {W R : Type} (h : handler W) (r : R) g w
    (Q : R → gmap string pyval → list event → Prop) :
  Q r g [] → post h (mret r) g w Q.
Proof. intros HQ. by exists r. Qed.

Lemma post_seq {W A B : Type} (h : handler W) (p : prog A) (f : A → prog B)
    g w (Q1 : A → gmap string pyval → list event → Prop)
    (Q : B → gmap string pyval → list event → Prop) :
  post h p g w Q1 →
  (∀ a g1 tr1 w1, Q1 a g1 tr1 →
     post h (f a) g1 w1 (λ b g2 tr2, Q b g2 (tr1 ++ tr2))) →
  post h (p ≫= f) g w Q.
Proof.
  intros (a & Ha & HQ1) Hf.
  destruct (Hf _ _ _ (o_world (run h p g w)) HQ1) as (b & Hb & HQ).
  exists b. rewrite run_bind. unfold andthen. rewrite Ha. simpl. auto.
Qed.

Lemma lift_eq {W X : Type} (th : total_handler W) (c : api X) w :
  lift th c w = ((th X c w).1, inr (th X c w).2).
Proof. unfold lift. by destruct (th X c w). Qed.

Lemma post_do {W R X : Type} (th : total_handler W) (c : api X)
    (k : X → prog R) g w (Q : R → gmap string pyval → list event → Prop) :
  (∀ x w', post (lift th) (k x) g w'
             (λ r g' tr, Q r g' (Ev c (inr x) :: tr))) →
  post (lift th) (Do c k) g w Q.
Proof.
  intros Hk. unfold post. simpl. rewrite lift_eq. apply Hk.
Qed.

Lemma post_call {W R X : Type} (th : total_handler W) (c : api X)
    (f : X → prog R) g w (Q : R → gmap string pyval → list event → Prop) :
  (∀ x w', post (lift th) (f x) g w'
             (λ r g' tr, Q r g' (Ev c (inr x) :: tr))) →
  post (lift th) (call c ≫= f) g w Q.
Proof. intros Hk. apply (@post_do _ _ _ th c (λ x, bind (Ret x) f)), Hk. Qed.

Lemma post_last_call {W X : Type} (th : total_handler W) (c : api X) g w
    (Q : X → gmap string pyval → list event → Prop) :
  (∀ x, Q x g [Ev c (inr x)]) → post (lift th) (call c) g w Q.
Proof. intros HQ. apply post_do. intros x w'. by apply post_ret. Qed.

Lemma post_set {W R : Type} (h : handler W) n v (k : prog R) g w
    (Q : R → gmap string pyval → list event → Prop) :
  post h k (<[n:=v]> g) w Q → post h (SetGlobal n v k) g w Q.
Proof. done. Qed.

Lemma post_get {W R : Type} (h : handler W) n v (k : pyval → prog R) g w
    (Q : R → gmap string pyval → list event → Prop) :
  g !! n = Some v → post h (k v) g w Q → post h (GetGlobal n k) g w Q.
Proof. intros Hn Hk. unfold post. simpl. by rewrite Hn. Qed.

Lemma post_with {W R A : Type} (th : total_handler W) (m : AmpGuard)
    (body : prog A) (k : option A → prog R) g w
    (Q1 : A → gmap string pyval → list event → Prop)
    (Q : R → gmap string pyval → list event → Prop) :
  (∀ w1, post (lift th) body g w1 Q1) →
  (∀ a g1 tr1 w2, Q1 a g1 tr1 →
     post (lift th) (k (Some a)) g1 w2
       (λ r g2 tr2, Q r g2 (Ev (guard_enter m) (inr ()) :: tr1
                            ++ Ev (guard_exit m) (inr ()) :: tr2))) →
  post (lift th) (With m body k) g w Q.
Proof.
  intros Hb Hk. unfold post. simpl. rewrite lift_eq.
  destruct (th _ (guard_enter m) w) as [w1 []]. simpl.
  destruct (Hb w1) as (a & Ha & HQ1).
  rewrite Ha, lift_eq.
  destruct (th _ (guard_exit m) (o_world (run (lift th) body g w1)))
    as [w2 []]. simpl.
  destruct (Hk _ _ _ w2 HQ1) as (r & Hr & HQ).
  exists r. simpl. split; [done|].
  rewrite <- app_assoc. exact HQ.
Qed.

(** A loop whose body leaves the module state alone: the log is the
    bodies' logs one after the other.  [P] relates the names the body
    rebinds to the log so far. *)
Lemma post_for_each {W A S : Type} (h : handler W) (body : A → S → prog S)
    (P : S → list event → Prop) (Qi : A → list event → Prop) g :
  (∀ s a b, P s b → P s (a ++ b)) →
  (∀ x s w, post h (body x s) g w (λ s' g' tr, g' = g ∧ P s' tr ∧ Qi x tr)) →
  ∀ l s w,
    post h (for_each l s body) g w
      (λ s' g' tr,
         g' = g ∧ (l = [] ∧ s' = s ∨ l ≠ [] ∧ P s' tr)
         ∧ ∃ groups, tr = concat groups ∧ Forall2 Qi l groups).
Proof.
  intros HP Hbody l. induction l as [|x l IH]; intros s w.
  - apply post_ret. split; [done|]. split; [by left|]. by exists [].
  - change (for_each (x :: l) s body)
      with (body x s ≫= λ s, for_each l s body).
    eapply post_seq; [apply Hbody|].
    intros s1 g1 tr1 w1 (-> & HP1 & HQ).
    eapply post_mono; [apply IH|].
    intros s2 g2 tr2 (-> & Hs & groups & -> & HF). simpl.
    split; [done|]. split.
    + right. split; [done|]. destruct Hs as [[-> ->]|[_ ?]]; [|by apply HP].
      inversion HF; subst. simpl. by rewrite app_nil_r.
    + exists (tr1 :: groups). split; [done|]. by constructor.
Qed.

(** Five passes over the same list, seen as one pass over five copies. *)
Lemma Forall2_epochs {A B : Type} (Qi : A → list event → Prop)
    (items : list A) (xs : list B) (gss : list (list event)) :
  Forall2 (λ _ tr, ∃ groups, tr = concat groups ∧ Forall2 Qi items groups)
    xs gss →
  ∃ iters, concat gss = concat iters
           ∧ Forall2 Qi (concat (replicate (length xs) items)) iters.
Proof.
  induction 1 as [|x tr xs gss (groups & -> & HF) _ (iters & Hc & HFs)].
  - by exists [].
  - exists (groups ++ iters). simpl. split.
    + by rewrite concat_app, Hc.
    + by apply Forall2_app.
Qed.

End Running.

(** ** The helpers and cells under a framework that does not raise *)

Section Cells.
Context `{host : Host} {W : Type} (th : total_handler W).

Lemma post_init i o g w :
  post (lift th) (SimpleNet_init i o) g w
    (λ model g' tr, g' = g ∧ tr = init_events i o model).
Proof.
  unfold SimpleNet_init.
  apply post_call; intros [] ?.
  repeat (apply post_call; intros ? ?). by apply post_ret.
Qed.

Lemma post_start_timer g w :
  post (lift th) start_timer g w
    (λ _ g' tr, ∃ t, g' = <["start_time" := VFloat t]> g
                     ∧ tr = [Ev time_time (inr t)]).
Proof.
  unfold start_timer. apply post_call; intros t w'.
  apply post_set, post_ret. by exists t.
Qed.

Lemma post_end_timer msg t0 g w :
  g !! "start_time" = Some (VFloat t0) →
  post (lift th) (end_timer_and_print msg) g w
    (λ _ g' tr, g' = g ∧ ∃ t1,
       tr = [ Ev time_time (inr t1);
              Ev (print (nl +:+ msg)) (inr ());
              Ev (print ("共计耗时 = " +:+ fmt3 (fsub t1 t0) +:+ " sec"))
                 (inr ()) ]).
Proof.
  intros Hg. unfold end_timer_and_print.
  apply post_call; intros t1 w1. apply post_call; intros [] w2.
  eapply post_get; [exact Hg|]. simpl.
  apply post_last_call; intros []. split; [done|]. by exists t1.
Qed.

Lemma post_print_loss loss g w :
  post (lift th) (print_loss (Some loss)) g w
    (λ _ g' tr, g' = g ∧ ∃ text,
       tr = [Ev (tensor_str loss) (inr text); Ev (print text) (inr ())]).
Proof.
  simpl. apply post_call; intros text w1.
  apply post_last_call; intros []. split; [done|]. by exists text.
Qed.

Lemma post_report loss msg t0 g w :
  g !! "start_time" = Some (VFloat t0) →
  post (lift th) (print_loss (Some loss) ≫= λ _, end_timer_and_print msg)
    g w
    (λ _ g' tr, g' = g ∧ ∃ text t1, tr = report_events loss text t0 t1 msg).
Proof.
  intros Hg. eapply post_seq; [apply post_print_loss|].
  intros [] g1 tr1 w1 (-> & text & ->).
  eapply post_mono; [by apply post_end_timer|].
  intros [] g2 tr2 (-> & t1 & ->). split; [done|]. by exists text, t1.
Qed.

Lemma post_comprehension {A : Type} (n : nat) (c : api A) g w :
  post (lift th) (comprehension n (call c)) g w
    (λ l g' tr, g' = g ∧ length l = n
                ∧ op_of <$> tr = replicate n (op_of_api c)).
Proof.
  revert w. induction n as [|n IH]; intros w; [by apply post_ret|].
  simpl. apply post_call; intros x w1.
  eapply post_seq; [apply IH|].
  intros l g1 tr1 w2 (-> & Hl & Htr). apply post_ret.
  split; [done|]. rewrite app_nil_r, !fmap_cons, Htr. simpl.
  by rewrite Hl.
Qed.

(** The third cell makes 50 batches and 50 labels, whatever the framework
    answers. *)
Lemma post_setup_cell g w :
  post (lift th) setup_cell g w
    (λ r g' tr, g' = g ∧ length r.1.1 = 50%nat ∧ length r.1.2 = 50%nat
                ∧ op_of <$> tr
                  = replicate 100 OpRandn ++ [OpMSELoss]).
Proof.
  unfold setup_cell.
  eapply post_seq; [apply post_comprehension|].
  intros train_data g1 tr1 w1 (-> & Hl1 & Ht1).
  eapply post_seq; [apply post_comprehension|].
  intros labels g2 tr2 w2 (-> & Hl2 & Ht2).
  apply post_call; intros mse w3. apply post_ret.
  split; [done|]. split; [done|]. split; [done|].
  rewrite !fmap_app, Ht1, Ht2. done.
Qed.

Lemma enumerate_from_nonempty {A : Type} (l : list A) i :
  l ≠ [] → enumerate_from i l ≠ [].
Proof. by destruct l. Qed.

Lemma holds_last_loss_app s a b :
  holds_last_loss s b → holds_last_loss s (a ++ b).
Proof.
  intros (loss & -> & Hl). exists loss. split; [done|].
  unfold computed_losses in *. by rewrite omap_app, last_app, Hl.
Qed.

(** The two nested loops of a cell, for a body that is known. *)
Lemma post_epochs (body : Z * (Tensor * Tensor) → option Tensor
                          → prog (option Tensor))
    (Qi : Z * (Tensor * Tensor) → list event → Prop)
    (train_data labels : list Tensor) loss0 g w :
  zip train_data labels ≠ [] →
  (∀ x s w, post (lift th) (body x s) g w
              (λ s' g' tr, g' = g ∧ holds_last_loss s' tr ∧ Qi x tr)) →
  post (lift th)
    (for_each (range epochs) loss0 (λ epoch loss,
       for_each (enumerate (zip train_data labels)) loss body)) g w
    (λ s' g' tr,
       g' = g
       ∧ ∃ iters loss, tr = concat iters
           ∧ Forall2 Qi
               (concat (replicate 5 (enumerate (zip train_data labels))))
               iters
           ∧ s' = Some loss
           ∧ last (computed_losses (concat iters)) = Some loss).
Proof.
  intros Hne Hbody.
  eapply post_mono.
  - apply post_for_each with
      (P := holds_last_loss)
      (Qi := λ (_ : Z) tr, ∃ groups, tr = concat groups
               ∧ Forall2 Qi (enumerate (zip train_data labels)) groups);
      [apply holds_last_loss_app|].
    intros epoch s w1.
    eapply post_mono;
      [by apply post_for_each; [apply holds_last_loss_app|]|].
    intros s' g' tr (-> & Hs & Hgroups). split; [done|]. split; [|done].
    destruct Hs as [[Hnil _]|[_ ?]]; [|done].
    by apply enumerate_from_nonempty in Hnil.
  - intros s' g' tr (-> & Hs & gss & -> & HF). split; [done|].
    destruct Hs as [[? _]|[_ (loss & -> & Hl)]]; [done|].
    apply Forall2_epochs in HF as (iters & Hc & HF).
    exists iters, loss. by rewrite <- Hc.
Qed.

Lemma post_autocast args model mse data label g w :
  post (lift th) (autocast_forward args model mse data label) g w
    (λ r g' tr, g' = g ∧ ∃ guard output loss,
       r = Some (output, loss)
       ∧ tr = autocast_events args model mse data label guard output loss).
Proof.
  unfold autocast_forward. apply post_call; intros guard w1.
  apply post_with with
    (Q1 := λ r g' tr, g' = g ∧
       tr = [Ev (model_call model data) (inr r.1);
             Ev (loss_call mse r.1 label) (inr r.2)]).
  - intros w2. apply post_call; intros output w3.
    apply post_call; intros loss w4. by apply post_ret.
  - intros [output loss] g1 tr1 w2 (-> & ->).
    apply post_ret. split; [done|]. by exists guard, output, loss.
Qed.

Ltac unit_answers :=
  repeat match goal with x : unit |- _ => destruct x end.

Lemma baseline_cell_shape train_data labels mse loss0 g w :
  zip train_data labels ≠ [] →
  post (lift th) (baseline_cell train_data labels mse loss0) g w
    (λ _ _ tr, ∃ model parameters optimizer t0 iters loss text t1,
       tr = init_events input_size output_size model
            ++ optimizer_events model parameters optimizer
            ++ [Ev time_time (inr t0)]
            ++ concat iters
            ++ report_events loss text t0 t1 "默认耗时:"
       ∧ Forall2 (baseline_iter model optimizer mse)
           (concat (replicate 5 (enumerate (zip train_data labels)))) iters
       ∧ last (computed_losses (concat iters)) = Some loss).
Proof.
  intros Hne. unfold baseline_cell.
  eapply post_seq; [apply post_init|].
  intros model g1 tr1 w1 (-> & ->).
  apply post_call; intros parameters w2.
  apply post_call; intros optimizer w3.
  eapply post_seq; [apply post_start_timer|].
  intros [] g2 tr2 w4 (t0 & -> & ->).
  eapply post_seq.
  { apply post_epochs with (Qi := baseline_iter model optimizer mse);
      [done|].
    intros [i [data label]] s w5.
    repeat (apply post_call; intros ? ?). apply post_ret.
    unit_answers. split; [done|]. split; [by eexists|]. by eexists _, _. }
  intros s g3 tr3 w6 (-> & iters & loss & -> & HF & -> & Hlast).
  eapply post_mono; [apply post_report, lookup_insert_eq|].
  intros [] g4 tr4 (-> & text & t1 & ->).
  exists model, parameters, optimizer, t0, iters, loss, text, t1.
  by split.
Qed.

Lemma post_amp_body args model optimizer scaler mse
    (item : Z * (Tensor * Tensor)) (stale : option Tensor) g w :
  post (lift th)
    (block ← autocast_forward args model mse item.2.1 item.2.2;
     loss ← loss_after block stale;
     scaled ← call (scaler_scale scaler loss);
     _ ← call (tensor_backward scaled);
     _ ← call (scaler_minimize scaler optimizer scaled);
     _ ← call (optimizer_clear_grad optimizer);
     mret (Some loss)) g w
    (λ s' g' tr, g' = g ∧ holds_last_loss s' tr
                 ∧ amp_iter args model optimizer scaler mse item tr).
Proof.
  eapply post_seq; [apply post_autocast|].
  intros block g1 tr1 w1 (-> & guard & output & loss & -> & ->).
  eapply post_seq with (Q1 := λ l g' tr, l = loss ∧ g' = g ∧ tr = []);
    [by apply post_ret|]. intros ? g2 tr2 w2 (-> & -> & ->).
  repeat (apply post_call; intros ? ?). apply post_ret.
  unit_answers. split; [done|]. split; [by eexists|]. by eexists _, _, _, _.
Qed.

Lemma amp_o1_cell_shape train_data labels mse loss0 g w :
  zip train_data labels ≠ [] →
  post (lift th) (amp_o1_cell train_data labels mse loss0) g w
    (λ _ _ tr, ∃ model parameters optimizer scaler t0 iters loss text t1,
       tr = init_events input_size output_size model
            ++ optimizer_events model parameters optimizer
            ++ [Ev (amp_GradScaler 1024) (inr scaler);
                Ev time_time (inr t0)]
            ++ concat iters
            ++ report_events loss text t0 t1 "使用AMP-O1模式耗时:"
       ∧ Forall2 (amp_iter no_args model optimizer scaler mse)
           (concat (replicate 5 (enumerate (zip train_data labels)))) iters
       ∧ last (computed_losses (concat iters)) = Some loss).
Proof.
  intros Hne. unfold amp_o1_cell.
  eapply post_seq; [apply post_init|].
  intros model g1 tr1 w1 (-> & ->).
  apply post_call; intros parameters w2.
  apply post_call; intros optimizer w3.
  apply post_call; intros scaler w4.
  eapply post_seq; [apply post_start_timer|].
  intros [] g2 tr2 w5 (t0 & -> & ->).
  eapply post_seq.
  { apply post_epochs
      with (Qi := amp_iter no_args model optimizer scaler mse); [done|].
    intros [i [data label]] s w6.
    apply post_amp_body with (item := (i, (data, label))). }
  intros s g3 tr3 w6 (-> & iters & loss & -> & HF & -> & Hlast).
  eapply post_mono; [apply post_report, lookup_insert_eq|].
  intros [] g4 tr4 (-> & text & t1 & ->).
  exists model, parameters, optimizer, scaler, t0, iters, loss, text, t1.
  by split.
Qed.

Lemma amp_o2_cell_shape train_data labels mse loss0 g w :
  zip train_data labels ≠ [] →
  post (lift th) (amp_o2_cell train_data labels mse loss0) g w
    (λ _ _ tr, ∃ model0 parameters optimizer0 scaler model optimizer t0
                 iters loss text t1,
       tr = init_events input_size output_size model0
            ++ optimizer_events model0 parameters optimizer0
            ++ [Ev (amp_GradScaler 1024) (inr scaler);
                Ev (amp_decorate model0 optimizer0 "O2" None None)
                   (inr (model, optimizer));
                Ev time_time (inr t0)]
            ++ concat iters
            ++ report_events loss text t0 t1 "使用AMP-O2模式耗时:"
       ∧ Forall2 (amp_iter o2_args model optimizer scaler mse)
           (concat (replicate 5 (enumerate (zip train_data labels)))) iters
       ∧ last (computed_losses (concat iters)) = Some loss).
Proof.
  intros Hne. unfold amp_o2_cell.
  eapply post_seq; [apply post_init|].
  intros model0 g1 tr1 w1 (-> & ->).
  apply post_call; intros parameters w2.
  apply post_call; intros optimizer0 w3.
  apply post_call; intros scaler w4.
  apply post_call; intros [model optimizer] w5.
  eapply post_seq; [apply post_start_timer|].
  intros [] g2 tr2 w6 (t0 & -> & ->).
  eapply post_seq.
  { apply post_epochs
      with (Qi := amp_iter o2_args model optimizer scaler mse); [done|].
    intros [i [data label]] s w7.
    apply post_amp_body with (item := (i, (data, label))). }
  intros s g3 tr3 w7 (-> & iters & loss & -> & HF & -> & Hlast).
  eapply post_mono; [apply post_report, lookup_insert_eq|].
  intros [] g4 tr4 (-> & text & t1 & ->).
  exists model0, parameters, optimizer0, scaler, model, optimizer, t0,
    iters, loss, text, t1.
  by split.
Qed.

Lemma accumulate_cell_shape train_data labels mse loss0 g w :
  zip train_data labels ≠ [] →
  post (lift th) (accumulate_cell train_data labels mse loss0) g w
    (λ _ _ tr, ∃ model parameters optimizer scaler t0 iters loss text t1,
       tr = init_events input_size output_size model
            ++ optimizer_events model parameters optimizer
            ++ [Ev (amp_GradScaler 1024) (inr scaler);
                Ev time_time (inr t0)]
            ++ concat iters
            ++ report_events loss text t0 t1 "使用AMP模式耗时:"
       ∧ Forall2 (accumulate_iter model optimizer scaler mse)
           (concat (replicate 5 (enumerate (zip train_data labels)))) iters
       ∧ last (computed_losses (concat iters)) = Some loss).
Proof.
  intros Hne. unfold accumulate_cell.
  eapply post_seq; [apply post_init|].
  intros model g1 tr1 w1 (-> & ->).
  apply post_call; intros parameters w2.
  apply post_call; intros optimizer w3.
  apply post_call; intros scaler w4.
  eapply post_seq; [apply post_start_timer|].
  intros [] g2 tr2 w5 (t0 & -> & ->).
  eapply post_seq.
  { apply post_epochs
      with (Qi := accumulate_iter model optimizer scaler mse); [done|].
    intros [i [data label]] s w6.
    eapply post_seq; [apply post_autocast|].
    intros block g1 tr1 w7 (Hg1 & guard & output & loss & -> & ->).
    eapply post_seq with (Q1 := λ l g' tr, l = loss ∧ g' = g1 ∧ tr = []);
      [by apply post_ret|]. intros ? g3 tr3 w' (-> & -> & ->). subst g1.
    apply post_call; intros scaled w8.
    apply post_call; intros [] w9.
    unfold accumulate_iter, accumulate_batchs_num. simpl.
    destruct (decide ((i + 1) `mod` 10 = 0)).
    - apply post_do; intros [] w10. apply post_do; intros [] w11.
      apply post_ret. split; [done|]. split; [by eexists|].
      by eexists _, _, _, _.
    - apply post_ret. split; [done|]. split; [by eexists|].
      by eexists _, _, _, _. }
  intros s g3 tr3 w6 (-> & iters & loss & -> & HF & -> & Hlast).
  eapply post_mono; [apply post_report, lookup_insert_eq|].
  intros [] g4 tr4 (-> & text & t1 & ->).
  exists model, parameters, optimizer, scaler, t0, iters, loss, text, t1.
  by split.
Qed.

End Cells.

(** ** The timing helpers *)

Section Timer.
Context `{host : Host}.

Lemma append_empty_r (s : string) : s +:+ "" = s.
Proof.
  induction s as [|a s IH]; [done|].
  change (String a (s +:+ "") = String a s). by rewrite IH.
Qed.

Lemma append_assoc (a b c : string) : (a +:+ b) +:+ c = a +:+ b +:+ c.
Proof.
  induction a as [|x a IH]; [done|].
  change (String x ((a +:+ b) +:+ c) = String x (a +:+ b +:+ c)).
  by rewrite IH.
Qed.

(** Neither helper touches a module-level name other than [start_time],
    whatever the framework does. *)
Lemma start_timer_frame {W : Type} (h : handler W) g w n :
  n ≠ "start_time" →
  o_globals (run h start_timer g w) !! n = g !! n.
Proof.
  intros Hn. unfold start_timer. simpl.
  destruct (h _ time_time w) as [w' [e|t]]; [done|].
  simpl. by rewrite lookup_insert_ne.
Qed.

Lemma end_timer_globals {W : Type} (h : handler W) msg g w :
  o_globals (run h (end_timer_and_print msg) g w) = g.
Proof.
  unfold end_timer_and_print. simpl.
  destruct (h _ time_time w) as [w1 [e|t1]]; [done|]. simpl.
  destruct (h _ (print _) w1) as [w2 [e|[]]]; [done|]. simpl.
  destruct (g !! "start_time") as [v|]; [|done].
  destruct (float_sub t1 v) as [e|d]; [done|]. simpl.
  by destruct (h _ (print _) w2) as [w3 [e|[]]].
Qed.

Lemma run_start_timer {W : Type} (th : total_handler W) g w :
  ∃ t, o_result (run (lift th) start_timer g w) = inr ()
       ∧ o_trace (run (lift th) start_timer g w) = [Ev time_time (inr t)]
       ∧ o_globals (run (lift th) start_timer g w)
         = <["start_time" := VFloat t]> g.
Proof.
  destruct (post_start_timer th g w) as ([] & Hr & t & Hg & Ht). by exists t.
Qed.

Lemma run_end_timer {W : Type} (th : total_handler W) msg t0 g w :
  g !! "start_time" = Some (VFloat t0) →
  ∃ t1, o_result (run (lift th) (end_timer_and_print msg) g w) = inr ()
        ∧ o_trace (run (lift th) (end_timer_and_print msg) g w)
          = [ Ev time_time (inr t1);
              Ev (print (nl +:+ msg)) (inr ());
              Ev (print ("共计耗时 = " +:+ fmt3 (fsub t1 t0) +:+ " sec"))
                 (inr ()) ].
Proof.
  intros Hg.
  destruct (post_end_timer th msg g w Hg) as ([] & Hr & _ & t1 & Ht).
  by exists t1.
Qed.

(** With [start_time] bound to anything but a float the second [print] is
    not reached. *)
Lemma run_end_timer_unset {W : Type} (th : total_handler W) msg v g w :
  g !! "start_time" = Some v → (∀ t0, v ≠ VFloat t0) →
  ∃ t1, o_result (run (lift th) (end_timer_and_print msg) g w)
          = inl TypeError
        ∧ o_trace (run (lift th) (end_timer_and_print msg) g w)
          = [Ev time_time (inr t1); Ev (print (nl +:+ msg)) (inr ())].
Proof.
  intros Hg Hv. unfold end_timer_and_print. simpl.
  rewrite lift_eq. destruct (th _ time_time w) as [w1 t1]. simpl.
  rewrite lift_eq. destruct (th _ (print (nl +:+ msg)) w1) as [w2 []].
  simpl. rewrite Hg. exists t1.
  destruct v as [|t0|s]; simpl; [done| |done]. by destruct (Hv t0).
Qed.

Lemma stdout_end_timer (t1 : float) msg (line : string) :
  stdout [ Ev time_time (inr t1);
           Ev (print (nl +:+ msg)) (inr ());
           Ev (print line) (inr ()) ]
  = nl +:+ msg +:+ nl +:+ line +:+ nl.
Proof.
  unfold stdout. simpl.
  change ("" +:+ ?x) with x. by rewrite append_empty_r, !append_assoc.
Qed.

Lemma session_cons {W : Type} (h : handler W) c cs g w :
  session h (c :: cs) g w
  = session h cs (o_globals (run h (timer_prog c) g w))
      (o_world (run h (timer_prog c) g w)).
Proof. done. Qed.

(** In a session that began with [start_time] bound, [start_time] holds a
    float once [start_timer] has been called and is unchanged before. *)
Lemma session_start_time {W : Type} (th : total_handler W) cs :
  ∀ g w v, g !! "start_time" = Some v →
    (CallStart ∈ cs →
       ∃ t, (session (lift th) cs g w).1 !! "start_time" = Some (VFloat t))
    ∧ (CallStart ∉ cs →
       (session (lift th) cs g w).1 !! "start_time" = Some v).
Proof.
  induction cs as [|c cs IH]; intros g w v Hg.
  - split; [by intros ?%elem_of_nil|done].
  - rewrite session_cons. destruct c as [|msg]; unfold timer_prog.
    + destruct (run_start_timer th g w) as (t & _ & _ & ->).
      destruct (IH (<["start_time" := VFloat t]> g)
                  (o_world (run (lift th) start_timer g w)) (VFloat t))
        as [Hin Hout]; [apply lookup_insert_eq|].
      split; [|by intros []; left].
      intros _. destruct (decide (CallStart ∈ cs)); [auto|].
      exists t. auto.
    + rewrite end_timer_globals.
      destruct (IH g (o_world (run (lift th) (end_timer_and_print msg) g w))
                  v Hg) as [Hin Hout].
      split.
      * intros [?|?]%elem_of_cons; [done|auto].
      * intros Hn. apply Hout. intros ?. apply Hn. by right.
Qed.

(** C5: [start_timer()] reads the clock once and stores the reading in the
    module-level [start_time]; in any later state where [start_time] still
    holds that reading, [end_timer_and_print(msg)] reads the clock, prints
    a blank line and [msg], and then prints the difference of the two
    readings, formatted with three decimals, in the line
    "共计耗时 = ... sec". *)
Theorem timer_pair_measures_elapsed {W : Type} (th : total_handler W)
    (msg : string) (g : gmap string pyval) (w : W) :
  let o1 := run (lift th) start_timer g w in
  ∃ t0,
    o_result o1 = inr ()
    ∧ o_trace o1 = [Ev time_time (inr t0)]
    ∧ o_globals o1 = <["start_time" := VFloat t0]> g
    ∧ ∀ (g2 : gmap string pyval) (w2 : W),
        g2 !! "start_time" = o_globals o1 !! "start_time" →
        let o2 := run (lift th) (end_timer_and_print msg) g2 w2 in
        ∃ t1,
          o_result o2 = inr ()
          ∧ o_trace o2
            = [ Ev time_time (inr t1);
                Ev (print (nl +:+ msg)) (inr ());
                Ev (print ("共计耗时 = " +:+ fmt3 (fsub t1 t0) +:+ " sec"))
                   (inr ()) ]
          ∧ stdout (o_trace o2)
            = nl +:+ msg +:+ nl
              +:+ ("共计耗时 = " +:+ fmt3 (fsub t1 t0) +:+ " sec") +:+ nl.
Proof.
  intros o1. destruct (run_start_timer th g w) as (t0 & Hr & Ht & Hg).
  exists t0. subst o1. repeat split; [done..|].
  intros g2 w2 Hg2 o2. rewrite Hg, lookup_insert_eq in Hg2.
  destruct (run_end_timer th msg g2 w2 Hg2) as (t1 & Hr2 & Ht2).
  exists t1. subst o2. repeat split; [done..|].
  rewrite Ht2. apply stdout_end_timer.
Qed.

(** C7: after any sequence of calls of the two helpers, [start_timer()]
    leaves every module-level name other than [start_time] as it was,
    [end_timer_and_print(msg)] leaves the whole module state as it was, and
    when two consecutive calls of [end_timer_and_print] complete, both
    subtract the same stored value of [start_time]. *)
Theorem helpers_touch_only_start_time {W : Type} (h : handler W)
    (cs : list timer_call) (msg1 msg2 : string) (g0 : gmap string pyval)
    (w0 : W) :
  let g := (session h cs g0 w0).1 in
  let w := (session h cs g0 w0).2 in
  (∀ n, n ≠ "start_time" → o_globals (run h start_timer g w) !! n = g !! n)
  ∧ o_globals (run h (end_timer_and_print msg1) g w) = g
  ∧ (let o := run h (end_timer_and_print msg1
                     ≫= λ _, end_timer_and_print msg2) g w in
     o_result o = inr () →
     ∃ t0 t1 t2,
       g !! "start_time" = Some (VFloat t0)
       ∧ o_globals o = g
       ∧ o_trace o
         = [ Ev time_time (inr t1);
             Ev (print (nl +:+ msg1)) (inr ());
             Ev (print ("共计耗时 = " +:+ fmt3 (fsub t1 t0) +:+ " sec"))
                (inr ());
             Ev time_time (inr t2);
             Ev (print (nl +:+ msg2)) (inr ());
             Ev (print ("共计耗时 = " +:+ fmt3 (fsub t2 t0) +:+ " sec"))
                (inr ()) ]).
Proof.
  intros g w. split; [|split].
  - intros n Hn. by apply start_timer_frame.
  - apply end_timer_globals.
  - generalize g w. clear. intros g w. unfold end_timer_and_print. simpl.
    destruct (h _ time_time w) as [w1 [e|t1]]; [done|]. simpl.
    destruct (h _ (print _) w1) as [w2 [e|[]]]; [done|]. simpl.
    destruct (g !! "start_time") as [v|] eqn:Hg; [|done].
    destruct v as [|t0|s]; simpl; [done| |done].
    destruct (h _ (print _) w2) as [w3 [e|[]]]; [done|]. simpl.
    destruct (h _ time_time w3) as [w4 [e|t2]]; [done|]. simpl.
    destruct (h _ (print _) w4) as [w5 [e|[]]]; [done|]. simpl.
    rewrite Hg. simpl.
    destruct (h _ (print _) w5) as [w6 [e|[]]]; [done|]. simpl.
    intros _. by exists t0, t1, t2.
Qed.

(** C8: the module starts with [start_time = None].  In a session of the
    two helpers that follows, [end_timer_and_print(msg)] completes when
    [start_timer()] was called before; when it was not, the call reads the
    clock, prints the blank line and [msg], and ends in a [TypeError]
    without printing an elapsed-time line. *)
Theorem end_timer_needs_start_timer {W : Type} (th : total_handler W)
    (cs : list timer_call) (msg : string) (g0 : gmap string pyval)
    (w0 : W) :
  let g := o_globals (run (lift th) timer_cell g0 w0) in
  let s := session (lift th) cs g w0 in
  let o := run (lift th) (end_timer_and_print msg) s.1 s.2 in
  g !! "start_time" = Some VNone
  ∧ (o_result o = inr () ↔ CallStart ∈ cs)
  ∧ (CallStart ∉ cs →
     ∃ t1,
       o_result o = inl TypeError
       ∧ o_trace o = [Ev time_time (inr t1); Ev (print (nl +:+ msg)) (inr ())]
       ∧ stdout (o_trace o) = nl +:+ msg +:+ nl).
Proof.
  intros g s o.
  assert (Hg : g !! "start_time" = Some VNone) by apply lookup_insert_eq.
  destruct (session_start_time th cs g w0 Hg) as [Hin Hout].
  fold s in Hin, Hout.
  assert (Hno : CallStart ∉ cs →
    ∃ t1, o_result o = inl TypeError
          ∧ o_trace o
            = [Ev time_time (inr t1); Ev (print (nl +:+ msg)) (inr ())]).
  { intros Hn. by apply run_end_timer_unset with (v := VNone); [apply Hout|]. }
  split; [done|]. split; [split|].
  - intros Hr. destruct (decide (CallStart ∈ cs)) as [|Hn]; [done|].
    destruct (Hno Hn) as (t1 & Hr' & _). congruence.
  - intros [t0 Ht0]%Hin.
    by destruct (run_end_timer th msg s.1 s.2 Ht0) as (t1 & Hr & _).
  - intros Hn. destruct (Hno Hn) as (t1 & Hr & Ht). exists t1.
    split; [done|]. split; [done|]. rewrite Ht. unfold stdout. simpl.
    change ("" +:+ ?x) with x. by rewrite append_empty_r, append_assoc.
Qed.

End Timer.

(** ** SimpleNet *)

Section Network.
Context `{host : Host}.

(** C1: [forward(x)] makes five calls and no other: [linear1] on [x],
    [relu1] on its answer, [linear2] on that answer, [relu2] on that one
    and [linear3] on the last, whose answer is returned as it is.  When
    the layers are functions of their input this is
    linear3(relu2(linear2(relu1(linear1(x))))). *)
Theorem forward_is_composition (self : SimpleNet) (x : Tensor) :
  (∀ (W : Type) (th : total_handler W) (g : gmap string pyval) (w : W),
     let o := run (lift th) (forward self x) g w in
     ∃ x1 x2 x3 x4 x5,
       o_result o = inr x5
       ∧ o_trace o
         = [ Ev (linear_call (linear1 self) x) (inr x1);
             Ev (relu_call (relu1 self) x1) (inr x2);
             Ev (linear_call (linear2 self) x2) (inr x3);
             Ev (relu_call (relu2 self) x3) (inr x4);
             Ev (linear_call (linear3 self) x4) (inr x5) ])
  ∧ (∀ (W : Type) (h : handler W) (lin : LinearLayer → Tensor → Tensor)
       (act : ReLULayer → Tensor → Tensor) (g : gmap string pyval) (w : W),
       (∀ l x w, (h _ (linear_call l x) w).2 = inr (lin l x)) →
       (∀ r x w, (h _ (relu_call r x) w).2 = inr (act r x)) →
       let o := run h (forward self x) g w in
       o_result o
       = inr (lin (linear3 self)
                (act (relu2 self)
                   (lin (linear2 self)
                      (act (relu1 self) (lin (linear1 self) x)))))
       ∧ op_of <$> o_trace o
         = [OpLinearCall; OpReluCall; OpLinearCall; OpReluCall;
            OpLinearCall]).
Proof.
  split.
  - intros W th g w o.
    assert (post (lift th) (forward self x) g w
              (λ x5 _ tr, ∃ x1 x2 x3 x4,
                 tr = [ Ev (linear_call (linear1 self) x) (inr x1);
                        Ev (relu_call (relu1 self) x1) (inr x2);
                        Ev (linear_call (linear2 self) x2) (inr x3);
                        Ev (relu_call (relu2 self) x3) (inr x4);
                        Ev (linear_call (linear3 self) x4) (inr x5) ]))
      as (x5 & Hr & x1 & x2 & x3 & x4 & Ht).
    { unfold forward. repeat (apply post_call; intros ? ?).
      apply post_ret. by eexists _, _, _, _. }
    by exists x1, x2, x3, x4, x5.
  - intros W h lin act g w Hlin Hact o. subst o. unfold forward. simpl.
    pose proof (Hlin (linear1 self) x w) as H1.
    destruct (h _ (linear_call (linear1 self) x) w) as [w1 r1].
    simpl in H1. subst r1. simpl.
    pose proof (Hact (relu1 self) (lin (linear1 self) x) w1) as H2.
    destruct (h _ (relu_call (relu1 self) _) w1) as [w2 r2].
    simpl in H2. subst r2. simpl.
    pose proof (Hlin (linear2 self) (act (relu1 self) (lin (linear1 self) x))
                  w2) as H3.
    destruct (h _ (linear_call (linear2 self) _) w2) as [w3 r3].
    simpl in H3. subst r3. simpl.
    pose proof (Hact (relu2 self)
                  (lin (linear2 self)
                     (act (relu1 self) (lin (linear1 self) x))) w3) as H4.
    destruct (h _ (relu_call (relu2 self) _) w3) as [w4 r4].
    simpl in H4. subst r4. simpl.
    pose proof (Hlin (linear3 self)
                  (act (relu2 self)
                     (lin (linear2 self)
                        (act (relu1 self) (lin (linear1 self) x)))) w4)
      as H5.
    destruct (h _ (linear_call (linear3 self) _) w4) as [w5 r5].
    simpl in H5. subst r5. done.
Qed.

End Network.

(** C9: [SimpleNet(input_size, output_size)] calls [nn.Linear(input_size,
    output_size)] for each of its three layers.  Under the shape rule of
    [Linear], building the network and passing a batch of shape
    [(batch_size, input_size)] through [forward] completes exactly when
    [input_size = output_size]; the notebook sets both to 4096. *)
Theorem SimpleNet_needs_equal_sizes :
  (∀ (host : Host) (W : Type) (th : total_handler W) (i o : Z)
     (g : gmap string pyval) (w : W),
     ∃ model,
       o_result (run (lift th) (SimpleNet_init i o) g w) = inr model
       ∧ o_trace (run (lift th) (SimpleNet_init i o) g w)
         = [ Ev nn_Layer_init (inr ());
             Ev (nn_Linear i o) (inr (linear1 model));
             Ev nn_ReLU (inr (relu1 model));
             Ev (nn_Linear i o) (inr (linear2 model));
             Ev nn_ReLU (inr (relu2 model));
             Ev (nn_Linear i o) (inr (linear3 model)) ])
  ∧ (∀ (i o b : Z) (g : gmap string (@pyval shape_host)),
       let o_ := run shapes
                   (model ← SimpleNet_init (host := shape_host) i o;
                    forward (host := shape_host) model (b, i)) g ()
       in
       (o_result o_ = inr (b, o) ↔ i = o)
       ∧ (i ≠ o → o_result o_ = inl (FrameworkError 0)))
  ∧ o_result (run shapes
                (model ← SimpleNet_init (host := shape_host) input_size
                           output_size;
                 forward (host := shape_host) model
                   (batch_size, input_size)) ∅ ())
    = inr (batch_size, output_size)
  ∧ input_size = 4096 ∧ output_size = 4096.
Proof.
  split; [|split; [|split]].
  - intros host W th i o g w.
    destruct (post_init th i o g w) as (model & Hr & _ & Ht).
    by exists model.
  - intros i o b g. simpl. unfold linear_shape. simpl.
    rewrite decide_True by done. simpl.
    destruct (decide (o = i)) as [->|Hne]; simpl.
    + by rewrite decide_True by done.
    + split; [split; [done|congruence]|done].
  - by vm_compute.
  - done.
Qed.

(** ** Exceptions *)

Section Straight.
Context `{host : Host}.

Lemma straight_mono (P P' : op → Prop) {R : Type} (p : prog R) :
  (∀ o, P o → P' o) → straight P p → straight P' p.
Proof. intros HP. induction 1; constructor; auto. Qed.

Lemma straight_bind (P : op → Prop) {A B : Type} (p : prog A)
    (f : A → prog B) :
  straight P p → (∀ a, straight P (f a)) → straight P (p ≫= f).
Proof.
  intros Hp Hf. change (p ≫= f) with (bind p f).
  induction Hp; simpl; try constructor; auto.
Qed.

Lemma straight_call (P : op → Prop) {X : Type} (c : api X) :
  P (op_of_api c) → straight P (call c).
Proof. intros HP. constructor; [done|]. intros x. constructor. Qed.

Lemma straight_for_each (P : op → Prop) {A S : Type} (l : list A) (s : S)
    (body : A → S → prog S) :
  (∀ x s, straight P (body x s)) → straight P (for_each l s body).
Proof.
  intros Hbody. revert s. induction l as [|x l IH]; intros s.
  - constructor.
  - apply straight_bind; auto.
Qed.

Lemma straight_comprehension (P : op → Prop) {A : Type} (n : nat)
    (p : prog A) :
  straight P p → straight P (comprehension n p).
Proof.
  intros Hp. induction n as [|n IH]; [constructor|].
  apply straight_bind; [done|]. intros x.
  apply straight_bind; [done|]. intros xs. constructor.
Qed.

Lemma failures_app (a b : list event) :
  failures (a ++ b) = failures a ++ failures b.
Proof. apply omap_app. Qed.

Lemma failures_cons (ev : event) (tr : list event) :
  failures (ev :: tr) = from_option (λ e, [e]) [] (failure ev) ++ failures tr.
Proof. unfold failures. simpl. by destruct (failure ev). Qed.

(** Every call a [straight P] program makes is one the program text
    contains. *)
Lemma straight_ops (P : op → Prop) {W R : Type} (h : handler W)
    (p : prog R) :
  straight P p → ∀ g w, Forall P (op_of <$> o_trace (run h p g w)).
Proof.
  induction 1 as [R r|R e|R X c k HP Hk IH|R n k Hk IH|R n v k Hk IH
                 |R A m body k HPe HPx Hb IHb Hk IH]; intros g w; simpl.
  - done.
  - done.
  - destruct (h X c w) as [w' [e|x]]; simpl; constructor; auto.
  - destruct (g !! n); [apply IH|done].
  - apply IH.
  - destruct (h _ (guard_enter m) w) as [w1 [e|[]]]; simpl.
    { by constructor. }
    specialize (IHb g w1).
    assert (Hex : ∀ X (c : api X) r,
              op_of_api c = OpExit →
              Forall P (op_of <$> o_trace (run h body g w1) ++ [Ev c r])).
    { intros X c r Hc. rewrite fmap_app. apply Forall_app. split; [done|].
      constructor; [|done]. simpl. by rewrite Hc. }
    destruct (o_result (run h body g w1)) as [e|a].
    + destruct (h _ (guard_exit_exc m e) _) as [w2 [e'|[|]]]; simpl;
        constructor; auto.
      apply Forall_fmap, Forall_app. split; apply Forall_fmap; auto.
    + destruct (h _ (guard_exit m) _) as [w2 [e'|[]]]; simpl;
        constructor; auto.
      apply Forall_fmap, Forall_app. split; apply Forall_fmap; auto.
Qed.

Lemma raised_once_cons (e : exn) (ev : event) (tr : list event) :
  failure ev = None → raised_once e tr → raised_once e (ev :: tr).
Proof.
  intros Hev (pre & X & c & post & -> & Hpre & Hpost & Hex).
  exists (ev :: pre), X, c, post. split; [done|].
  split; [|done]. by rewrite failures_cons, Hev.
Qed.

Lemma raised_once_app (e : exn) (a tr : list event) :
  failures a = [] → raised_once e tr → raised_once e (a ++ tr).
Proof.
  intros Ha (pre & X & c & post & -> & Hpre & Hpost & Hex).
  exists (a ++ pre), X, c, post. rewrite app_assoc. split; [done|].
  split; [|done]. by rewrite failures_app, Ha, Hpre.
Qed.

Lemma raised_once_snoc (e : exn) (tr : list event) (ev : event) :
  failure ev = None → op_of ev = OpExit → raised_once e tr →
  raised_once e (tr ++ [ev]).
Proof.
  intros Hev Hop (pre & X & c & post & -> & Hpre & Hpost & Hex).
  exists pre, X, c, (post ++ [ev]). rewrite <- app_assoc. split; [done|].
  split; [done|]. split.
  - by rewrite failures_app, Hpost, failures_cons, Hev.
  - apply Forall_app. split; [done|]. by constructor.
Qed.

Lemma raised_once_last (e : exn) (tr : list event) {X : Type} (c : api X) :
  failures tr = [] → raised_once e (tr ++ [Ev c (inl e)]).
Proof. intros Htr. by exists tr, X, c, []. Qed.

(** The one raising call of a log is found wherever the log is split at a
    raising call. *)
Lemma raised_once_split (e : exn) (tr pre post : list event) (ev : event) :
  raised_once e tr → tr = pre ++ ev :: post → is_Some (failure ev) →
  failure ev = Some e ∧ failures pre = [] ∧ failures post = []
  ∧ Forall (λ ev, op_of ev = OpExit) post.
Proof.
  intros (pre0 & X & c & post0 & -> & Hpre & Hpost & Hex) Heq [e' He'].
  revert pre Heq. induction pre0 as [|x pre0 IH]; intros pre Heq.
  - destruct pre as [|y pre]; simpl in Heq; injection Heq as Hev Hp.
    + by subst.
    + subst post0. rewrite failures_app, failures_cons, He' in Hpost.
      by destruct (failures pre).
  - rewrite failures_cons in Hpre. apply app_eq_nil in Hpre as [Hx Hpre].
    destruct pre as [|y pre]; simpl in Heq; injection Heq as Hev Hp.
    + subst x. by rewrite He' in Hx.
    + subst y. destruct (IH Hpre pre Hp) as (H1 & H2 & H3).
      split; [done|]. split; [|done]. by rewrite failures_cons, Hx, H2.
Qed.

Lemma quiet_split (tr pre post : list event) (ev : event) :
  failures tr = [] → tr = pre ++ ev :: post → is_Some (failure ev) → False.
Proof.
  intros Htr -> [e He]. rewrite failures_app, failures_cons, He in Htr.
  by destruct (failures pre).
Qed.

Lemma passes_exception_exit (m : AmpGuard) (e : exn) (r : exn + bool) :
  passes_exception (Ev (guard_exit_exc m e) r) → r = inr false.
Proof. by destruct r as [e'|[|]]. Qed.

(** What a [straight] program does with an exception: nothing.  In a run
    in which no context manager interferes, a run that completes has seen
    no call raise, and a run that ends in an exception has seen no call
    raise (the exception is of the language: an unbound name, a wrong
    operand) or one, whose exception it is. *)
Lemma straight_run (P : op → Prop) {W R : Type} (h : handler W)
    (p : prog R) :
  straight P p →
  ∀ g w,
    managers_pass (o_trace (run h p g w)) →
    match o_result (run h p g w) with
    | inr _ => failures (o_trace (run h p g w)) = []
    | inl e => failures (o_trace (run h p g w)) = []
               ∨ raised_once e (o_trace (run h p g w))
    end.
Proof.
  unfold managers_pass.
  induction 1 as [R r|R e|R X c k HP Hk IH|R n k Hk IH|R n v k Hk IH
                 |R A m body k HPe HPx Hb IHb Hk IH]; intros g w; simpl.
  - done.
  - by left.
  - destruct (h X c w) as [w' [e|x]]; simpl.
    + intros _. right. by exists [], X, c, [].
    + intros Hpass. apply Forall_cons in Hpass as [_ Hpass].
      specialize (IH x g w' Hpass).
      destruct (o_result (run h (k x) g w')) as [e|r]; [|done].
      destruct IH as [IH|IH]; [by left|right].
      by apply raised_once_cons.
  - destruct (g !! n); [apply IH|by left].
  - apply IH.
  - destruct (h _ (guard_enter m) w) as [w1 [e|[]]]; simpl.
    { intros _. right. by exists [], _, (guard_enter m), []. }
    specialize (IHb g w1).
    destruct (o_result (run h body g w1)) as [e|a].
    + destruct (h _ (guard_exit_exc m e) _) as [w2 r2] eqn:Hexit.
      assert (Hr2 :
        Forall passes_exception
          (o_trace (run h body g w1) ++ [Ev (guard_exit_exc m e) r2]) →
        r2 = inr false
        ∧ (failures (o_trace (run h body g w1)) = []
           ∨ raised_once e (o_trace (run h body g w1)))).
      { intros Hpass. apply Forall_app in Hpass as [Hbody Hpass].
        apply Forall_cons in Hpass as [Hpass _].
        split; [by apply passes_exception_exit in Hpass|by apply IHb]. }
      destruct r2 as [e'|[|]]; simpl; intros Hpass;
        apply Forall_cons in Hpass as [_ Hpass].
      * by destruct (Hr2 Hpass).
      * apply Forall_app in Hpass as [Hpass _]. by destruct (Hr2 Hpass).
      * destruct (Hr2 Hpass) as [_ [Hq|Hq]].
        -- left. by rewrite failures_app, Hq.
        -- right. apply raised_once_cons; [done|].
           by apply raised_once_snoc.
    + destruct (h _ (guard_exit m) _) as [w2 [e'|[]]]; simpl.
      * intros Hpass. apply Forall_cons in Hpass as [_ Hpass].
        apply Forall_app in Hpass as [Hbody _]. right.
        apply raised_once_cons; [done|].
        apply raised_once_last. by apply IHb.
      * intros Hpass. apply Forall_cons in Hpass as [_ Hpass].
        rewrite <- app_assoc in Hpass.
        apply Forall_app in Hpass as [Hbody Hpass].
        apply Forall_cons in Hpass as [_ Hpass].
        specialize (IHb Hbody).
        specialize (IH (Some a) (o_globals (run h body g w1)) w2 Hpass).
        assert (Hq : failures
                  (o_trace (run h body g w1)
                   ++ [Ev (guard_exit m) (inr ())]) = []).
        { by rewrite failures_app, IHb. }
        destruct (o_result (run h (k (Some a)) _ w2)) as [e|r].
        -- destruct IH as [IH|IH].
           ++ left. by rewrite failures_app, Hq, IH.
           ++ right. apply raised_once_cons; [done|].
              by apply raised_once_app.
        -- by rewrite failures_app, Hq, IH.
Qed.

Lemma handed_over_quiet (tr : list event) (final : option exn) :
  failures tr = [] → handed_over tr final.
Proof.
  intros Htr pre X c e post Heq. exfalso.
  eapply quiet_split; [exact Htr|exact Heq|by exists e].
Qed.

Lemma handed_over_single {X : Type} (c : api X) (e : exn) :
  handed_over [Ev c (inl e)] (Some e).
Proof.
  intros pre Y c' e' post Heq.
  pose proof (f_equal failures Heq) as Hf.
  rewrite failures_app, failures_cons in Hf. simpl in Hf.
  destruct pre as [|ev pre].
  - apply (f_equal tail) in Heq. simpl in Heq. subst post.
    by injection Hf as ->.
  - apply (f_equal tail) in Heq. by destruct pre.
Qed.

Lemma handed_over_tail (ev : event) (tr : list event) final :
  handed_over (ev :: tr) final → handed_over tr final.
Proof. intros H pre X c e post ->. by apply (H (ev :: pre) X c e post). Qed.

(** Two logs one after the other: where the first ends with an exception,
    the second begins with the leaving of a [with] block with it. *)
Lemma handed_over_app (a b : list event) (mid final : option exn) :
  handed_over a mid → handed_over b final →
  (∀ e, mid = Some e →
        match b with
        | [] => final = Some e
        | ev :: _ => ∃ m r, ev = Ev (guard_exit_exc m e) r
        end) →
  handed_over (a ++ b) final.
Proof.
  intros Ha Hb Hmid. induction a as [|y a IH]; [done|].
  intros pre X c e post Heq.
  destruct pre as [|z pre]; simpl in Heq; injection Heq as Hev Hp.
  - subst y post. specialize (Ha [] X c e a eq_refl).
    destruct a as [|y a]; [by apply Hmid|done].
  - subst z. apply handed_over_tail in Ha.
    by apply (IH Ha pre X c e post).
Qed.

Lemma handed_over_cons (ev : event) (tr : list event) final :
  failure ev = None → handed_over tr final → handed_over (ev :: tr) final.
Proof.
  intros Hev Htr. change (handed_over ([ev] ++ tr) final).
  eapply handed_over_app with (mid := None); [|done..].
  apply handed_over_quiet. by rewrite failures_cons, Hev.
Qed.

(** A [straight] program does nothing with an exception but hand it to
    the manager of the [with] block it is in, against every framework. *)
Lemma straight_hands_over (P : op → Prop) {W R : Type} (h : handler W)
    (p : prog R) :
  straight P p →
  ∀ g w,
    handed_over (o_trace (run h p g w)) (raised (o_result (run h p g w))).
Proof.
  induction 1 as [R r|R e|R X c k HP Hk IH|R n k Hk IH|R n v k Hk IH
                 |R A m body k HPe HPx Hb IHb Hk IH]; intros g w; simpl.
  - by apply handed_over_quiet.
  - by apply handed_over_quiet.
  - destruct (h X c w) as [w' [e|x]]; simpl.
    + apply handed_over_single.
    + apply handed_over_cons; [done|apply IH].
  - destruct (g !! n); [apply IH|by apply handed_over_quiet].
  - apply IH.
  - destruct (h _ (guard_enter m) w) as [w1 [e|[]]]; simpl.
    { apply handed_over_single. }
    specialize (IHb g w1).
    destruct (o_result (run h body g w1)) as [e|a]; simpl in IHb.
    + destruct (h _ (guard_exit_exc m e) _) as [w2 [e'|[|]]]; simpl;
        apply handed_over_cons; try done.
      * eapply handed_over_app; [exact IHb|apply handed_over_single|].
        intros e0 [= <-]. by eexists _, _.
      * eapply handed_over_app with (mid := None);
          [|apply IH|by intros e0 [=]].
        eapply handed_over_app; [exact IHb|by apply handed_over_quiet|].
        intros e0 [= <-]. by eexists _, _.
      * eapply handed_over_app; [exact IHb|by apply handed_over_quiet|].
        intros e0 [= <-]. by eexists _, _.
    + destruct (h _ (guard_exit m) _) as [w2 [e'|[]]]; simpl;
        apply handed_over_cons; try done.
      * eapply handed_over_app; [exact IHb|apply handed_over_single|].
        by intros e0 [=].
      * eapply handed_over_app with (mid := None);
          [|apply IH|by intros e0 [=]].
        eapply handed_over_app; [exact IHb|by apply handed_over_quiet|].
        by intros e0 [=].
Qed.

Lemma run_propagates {W R : Type} (o : outcome W R) :
  match o_result o with
  | inr _ => failures (o_trace o) = []
  | inl e => failures (o_trace o) = [] ∨ raised_once e (o_trace o)
  end →
  propagates o.
Proof.
  intros Ho pre X c e post Htr.
  assert (Hev : is_Some (failure (Ev c (inl e)))) by (by exists e).
  destruct (o_result o) as [e0|r].
  - destruct Ho as [Ho|Ho].
    + exfalso. eapply quiet_split; [exact Ho|exact Htr|exact Hev].
    + eapply raised_once_split in Ho; [|exact Htr|exact Hev].
      destruct Ho as ([= ->] & Hrest). done.
  - exfalso. eapply quiet_split; [exact Ho|exact Htr|exact Hev].
Qed.

Lemma plain_managers_pass (tr : list event) :
  Forall not_exit (op_of <$> tr) → managers_pass tr.
Proof.
  unfold managers_pass. induction tr as [|[X c r] tr IH]; [done|].
  rewrite fmap_cons. intros [Hc Hops]%Forall_cons.
  constructor; [|by apply IH]. by destruct c.
Qed.

Ltac straight_step :=
  match goal with
  | |- straight _ (_ ≫= _) => apply straight_bind
  | |- straight _ (call _) => apply straight_call; simpl; try done
  | |- straight _ (for_each _ _ _) => apply straight_for_each
  | |- straight _ (match ?x with _ => _ end) => destruct x
  | |- straight _ ((match ?x with _ => _ end) _) => destruct x
  | |- straight _ _ => constructor; simpl; try done
  | |- ∀ _, _ => intros ?
  end.

Ltac straight_code :=
  unfold baseline_cell, amp_o1_cell, amp_o2_cell, accumulate_cell,
    SimpleNet_init, forward, start_timer, print_loss, end_timer_and_print,
    autocast_forward, loss_after;
  repeat straight_step.

Lemma straight_start_timer : straight not_decorate start_timer.
Proof. straight_code. Qed.

Lemma straight_end_timer msg :
  straight not_decorate (end_timer_and_print msg).
Proof. straight_code. Qed.

Lemma straight_init i o : straight not_decorate (SimpleNet_init i o).
Proof. straight_code. Qed.

Lemma straight_forward self x : straight not_decorate (forward self x).
Proof. straight_code. Qed.

Lemma straight_baseline train_data labels mse loss0 :
  straight not_decorate (baseline_cell train_data labels mse loss0).
Proof. straight_code. Qed.

Lemma straight_amp_o1 train_data labels mse loss0 :
  straight not_decorate (amp_o1_cell train_data labels mse loss0).
Proof. straight_code. Qed.

Lemma straight_amp_o2 train_data labels mse loss0 :
  straight (λ _, True) (amp_o2_cell train_data labels mse loss0).
Proof. straight_code. Qed.

Lemma straight_accumulate train_data labels mse loss0 :
  straight not_decorate (accumulate_cell train_data labels mse loss0).
Proof. straight_code. Qed.

Lemma plain_start_timer : straight not_exit start_timer.
Proof. straight_code. Qed.

Lemma plain_end_timer msg : straight not_exit (end_timer_and_print msg).
Proof. straight_code. Qed.

Lemma plain_init i o : straight not_exit (SimpleNet_init i o).
Proof. straight_code. Qed.

Lemma plain_forward self x : straight not_exit (forward self x).
Proof. straight_code. Qed.

Lemma plain_baseline train_data labels mse loss0 :
  straight not_exit (baseline_cell train_data labels mse loss0).
Proof. straight_code. Qed.

Lemma straight_unhandled {R : Type} (p : prog R) :
  straight not_exit p → unhandled p.
Proof.
  intros Hp. split; [by apply straight_mono with not_exit|].
  intros W h g w. apply run_propagates, (straight_run h Hp).
  apply plain_managers_pass, (straight_ops h Hp).
Qed.

Lemma straight_unhandled_in_with (P : op → Prop) {R : Type} (p : prog R) :
  straight P p → unhandled_in_with p.
Proof.
  intros Hp. split; [by apply straight_mono with P|].
  intros W h g w. split; [apply (straight_hands_over h Hp)|].
  intros Hpass. by apply run_propagates, (straight_run h Hp).
Qed.

(** C10: none of the authored definitions ([start_timer],
    [end_timer_and_print], [SimpleNet.__init__], [SimpleNet.forward] and
    the four training cells) contains a [try] block or a [raise]
    statement, and an exception raised by a call propagates unchanged: the
    call that raised is the only one that did, its exception is the
    result, and the definition makes no further call of its own.  For the
    helpers, the network and the baseline cell this holds against every
    framework.  The three AMP cells call the framework inside a [with]
    block, where Python hands the exception to the context manager
    [paddle.amp.auto_cast] returned.  Against every framework these cells
    do nothing else with it: a call that raised is the last call, and its
    exception the result, or the very next call is the leaving of the
    block with that exception.  And the exception propagates unchanged in
    every run in which the manager, left with an exception, neither
    raises nor swallows it; the leaving of the block is then the only
    call that follows. *)
Theorem authored_code_handles_no_exception (msg : string) (i o : Z)
    (self : SimpleNet) (x : Tensor) (train_data labels : list Tensor)
    (mse : LossFn) (loss0 : option Tensor) :
  unhandled start_timer
  ∧ unhandled (end_timer_and_print msg)
  ∧ unhandled (SimpleNet_init i o)
  ∧ unhandled (forward self x)
  ∧ unhandled (baseline_cell train_data labels mse loss0)
  ∧ unhandled_in_with (amp_o1_cell train_data labels mse loss0)
  ∧ unhandled_in_with (amp_o2_cell train_data labels mse loss0)
  ∧ unhandled_in_with (accumulate_cell train_data labels mse loss0).
Proof.
  split; [apply straight_unhandled, plain_start_timer|].
  split; [apply straight_unhandled, plain_end_timer|].
  split; [apply straight_unhandled, plain_init|].
  split; [apply straight_unhandled, plain_forward|].
  split; [apply straight_unhandled, plain_baseline|].
  split; [eapply straight_unhandled_in_with, straight_amp_o1|].
  split; [eapply straight_unhandled_in_with, straight_amp_o2|].
  eapply straight_unhandled_in_with, straight_accumulate.
Qed.

End Straight.

(** ** The training loops *)

Section Loops.
Context `{host : Host} {W : Type} (th : total_handler W).

Lemma length_enumerate_from {A : Type} (l : list A) i :
  length (enumerate_from i l) = length l.
Proof. revert i. induction l as [|x l IH]; intros i; simpl; auto. Qed.

Lemma fst_enumerate_from {A : Type} (l : list A) i :
  (enumerate_from i l).*1 = seqZ i (Z.of_nat (length l)).
Proof.
  revert i. induction l as [|x l IH]; intros i; [done|].
  simpl length. rewrite seqZ_cons by lia. simpl. rewrite IH.
  do 2 f_equal; lia.
Qed.

Lemma zip_nonempty {A B : Type} (l : list A) (k : list B) :
  length l = 50%nat → length k = 50%nat → zip l k ≠ [].
Proof. by destruct l, k. Qed.

Lemma length_batches {A B : Type} (l : list A) (k : list B) :
  length l = 50%nat → length k = 50%nat →
  length (enumerate (zip l k)) = 50%nat.
Proof.
  intros Hl Hk. unfold enumerate.
  rewrite length_enumerate_from, length_zip. lia.
Qed.

Lemma length_epochs {A : Type} (items : list A) :
  length items = 50%nat → length (concat (replicate 5 items)) = 250%nat.
Proof. intros Hl. simpl. rewrite !length_app, Hl. done. Qed.

Lemma fst_epochs {A B : Type} (l : list A) (k : list B) :
  length l = 50%nat → length k = 50%nat →
  (concat (replicate 5 (enumerate (zip l k)))).*1
  = concat (replicate 5 (seqZ 0 50)).
Proof.
  intros Hl Hk.
  assert ((enumerate (zip l k)).*1 = seqZ 0 50) as Hfst.
  { unfold enumerate. rewrite fst_enumerate_from, length_zip, Hl, Hk. done. }
  simpl. by rewrite !fmap_app, Hfst.
Qed.

Lemma Forall2_ops {A : Type} (Qi : A → list event → Prop)
    (ops : A → list op) (items : list A) (iters : list (list event)) :
  (∀ x evs, Qi x evs → op_of <$> evs = ops x) →
  Forall2 Qi items iters →
  op_of <$> concat iters = concat (ops <$> items).
Proof.
  intros Hops. induction 1 as [|x evs items iters HQ _ IH]; [done|].
  simpl. by rewrite fmap_app, IH, (Hops x evs HQ).
Qed.

Lemma Forall2_omap {A B : Type} (Qi : A → list event → Prop)
    (f f' : event → option B) (items : list A)
    (iters : list (list event)) :
  (∀ x evs, Qi x evs → omap f evs = omap f' evs) →
  Forall2 Qi items iters →
  omap f (concat iters) = omap f' (concat iters).
Proof.
  intros Hf. induction 1 as [|x evs items iters HQ _ IH]; [done|].
  simpl. by rewrite !omap_app, IH, (Hf x evs HQ).
Qed.

Lemma count_op_ops (o : op) (tr : list event) :
  count_op o tr = length (filter (λ x, x = o) (op_of <$> tr)).
Proof.
  unfold count_op. induction tr as [|ev tr IH]; [done|].
  rewrite fmap_cons, !filter_cons. simpl.
  destruct (decide (op_of ev = o)); simpl; by rewrite IH.
Qed.

Lemma accumulate_iter_ops model optimizer scaler mse item evs :
  accumulate_iter model optimizer scaler mse item evs →
  op_of <$> evs = accumulate_ops item.1.
Proof.
  intros (guard & output & loss & scaled & ->). unfold accumulate_ops.
  by destruct (decide ((item.1 + 1) `mod` 10 = 0)).
Qed.

(** C6: the baseline cell, on 50 batches and 50 labels, completes; between
    the reading of the start time and the report it makes 250 groups of
    calls, one per pair of [zip(train_data, labels)] in list order and
    that five times over, each group being [model(data)],
    [mse(output, label)], [loss.backward()], [optimizer.step()],
    [optimizer.clear_grad()] on the values just computed; the loss of the
    last group is printed after them, followed by the elapsed-time
    message. *)
Theorem baseline_loop_sequence (train_data labels : list Tensor)
    (mse : LossFn) (loss0 : option Tensor) (g : gmap string pyval) (w : W) :
  length train_data = 50%nat → length labels = 50%nat →
  let o := run (lift th) (baseline_cell train_data labels mse loss0) g w in
  ∃ model parameters optimizer t0 iters loss text t1,
    o_result o = inr ()
    ∧ o_trace o
      = init_events 4096 4096 model
        ++ optimizer_events model parameters optimizer
        ++ [Ev time_time (inr t0)]
        ++ concat iters
        ++ report_events loss text t0 t1 "默认耗时:"
    ∧ Forall2 (baseline_iter model optimizer mse)
        (concat (replicate 5 (enumerate (zip train_data labels)))) iters
    ∧ length iters = 250%nat
    ∧ last (computed_losses (concat iters)) = Some loss.
Proof.
  intros Hl Hk o.
  destruct (baseline_cell_shape th train_data labels mse loss0 g w
              (zip_nonempty _ _ Hl Hk))
    as ([] & Hr & model & parameters & optimizer & t0 & iters & loss & text
        & t1 & Ht & HF & Hlast).
  exists model, parameters, optimizer, t0, iters, loss, text, t1.
  split; [done|]. split; [done|]. split; [done|]. split; [|done].
  rewrite <- (Forall2_length _ _ _ HF).
  by apply length_epochs, length_batches.
Qed.

Lemma amp_iter_backward_scaled args model optimizer scaler mse item evs :
  amp_iter args model optimizer scaler mse item evs →
  omap backward_arg evs = omap scale_result evs.
Proof. by intros (guard & output & loss & scaled & ->). Qed.

Lemma accumulate_iter_backward_scaled model optimizer scaler mse item evs :
  accumulate_iter model optimizer scaler mse item evs →
  omap backward_arg evs = omap scale_result evs.
Proof.
  intros (guard & output & loss & scaled & ->).
  by destruct (decide ((item.1 + 1) `mod` 10 = 0)).
Qed.

Lemma accumulate_iter_updates model optimizer scaler mse item evs :
  accumulate_iter model optimizer scaler mse item evs →
  (OpMinimize ∈ (op_of <$> evs) ↔ (item.1 + 1) `mod` 10 = 0)
  ∧ (OpClearGrad ∈ (op_of <$> evs) ↔ (item.1 + 1) `mod` 10 = 0).
Proof.
  intros Hit. rewrite (accumulate_iter_ops Hit).
  unfold accumulate_ops, scale_backward_ops.
  destruct (decide ((item.1 + 1) `mod` 10 = 0)) as [Hi|Hi]; simpl.
  - split; (split; [done|]; intros _; by apply (bool_decide_unpack _)).
  - split; (split; [|done]; intros Hin;
            by apply (bool_decide_pack _) in Hin).
Qed.

(** C2: the gradient-accumulation cell, on 50 batches and 50 labels,
    completes.  Every iteration enters [auto_cast], computes output and
    loss, leaves it, scales the loss and calls [backward] on the scaled
    loss; [scaler.minimize(optimizer, scaled)] and [optimizer.clear_grad()]
    follow exactly in the iterations whose index [i] has
    [(i + 1) % 10 = 0], and [i] runs through 0..49 in each of the five
    epochs.  So an epoch is five times: ten scale-and-backward iterations
    and then one update; there are 25 calls of [minimize] in all. *)
Theorem accumulation_updates_every_tenth_batch
    (train_data labels : list Tensor) (mse : LossFn)
    (loss0 : option Tensor) (g : gmap string pyval) (w : W) :
  length train_data = 50%nat → length labels = 50%nat →
  let o := run (lift th) (accumulate_cell train_data labels mse loss0) g w in
  let items := concat (replicate 5 (enumerate (zip train_data labels))) in
  ∃ model parameters optimizer scaler t0 iters loss text t1,
    o_result o = inr ()
    ∧ o_trace o
      = init_events 4096 4096 model
        ++ optimizer_events model parameters optimizer
        ++ [Ev (amp_GradScaler 1024) (inr scaler); Ev time_time (inr t0)]
        ++ concat iters
        ++ report_events loss text t0 t1 "使用AMP模式耗时:"
    ∧ Forall2
        (λ item evs,
           accumulate_iter model optimizer scaler mse item evs
           ∧ (OpMinimize ∈ (op_of <$> evs) ↔ (item.1 + 1) `mod` 10 = 0)
           ∧ (OpClearGrad ∈ (op_of <$> evs) ↔ (item.1 + 1) `mod` 10 = 0))
        items iters
    ∧ items.*1 = concat (replicate 5 (seqZ 0 50))
    ∧ op_of <$> concat iters
      = concat (replicate 5 (concat (replicate 5
          (concat (replicate 10 scale_backward_ops)
           ++ [OpMinimize; OpClearGrad]))))
    ∧ count_op OpMinimize (o_trace o) = 25%nat.
Proof.
  intros Hl Hk o items.
  destruct (accumulate_cell_shape th train_data labels mse loss0 g w
              (zip_nonempty _ _ Hl Hk))
    as ([] & Hr & model & parameters & optimizer & scaler & t0 & iters
        & loss & text & t1 & Ht & HF & Hlast).
  fold items in HF.
  assert (Hfst : items.*1 = concat (replicate 5 (seqZ 0 50)))
    by (by apply fst_epochs).
  assert (Hops : op_of <$> concat iters
                 = concat (replicate 5 (concat (replicate 5
                     (concat (replicate 10 scale_backward_ops)
                      ++ [OpMinimize; OpClearGrad]))))).
  { rewrite (Forall2_ops (λ x, accumulate_ops x.1)
               (λ x evs (Hx : accumulate_iter model optimizer scaler mse
                                x evs), accumulate_iter_ops Hx) HF).
    change (λ x : Z * (Tensor * Tensor), accumulate_ops x.1)
      with (accumulate_ops ∘ (fst : Z * (Tensor * Tensor) → Z)).
    rewrite list_fmap_compose, Hfst. by vm_compute. }
  exists model, parameters, optimizer, scaler, t0, iters, loss, text, t1.
  split; [done|]. split; [done|]. split.
  { eapply Forall2_impl; [exact HF|]. intros item evs Hit.
    split; [done|]. by apply accumulate_iter_updates in Hit. }
  split; [done|]. split; [done|].
  rewrite count_op_ops. fold o in Ht. rewrite Ht, !fmap_app, Hops.
  by vm_compute.
Qed.

Lemma backward_on_scaled (Qi : Z * (Tensor * Tensor) → list event → Prop)
    (items : list (Z * (Tensor * Tensor))) (iters : list (list event))
    (pre post : list event) :
  (∀ x evs, Qi x evs → omap backward_arg evs = omap scale_result evs) →
  Forall2 Qi items iters →
  backward_args pre = [] → scale_results pre = [] →
  backward_args post = [] → scale_results post = [] →
  backward_args (pre ++ concat iters ++ post)
  = scale_results (pre ++ concat iters ++ post).
Proof.
  unfold backward_args, scale_results.
  intros HQ HF Hb1 Hs1 Hb2 Hs2.
  rewrite !omap_app, Hb1, Hs1, Hb2, Hs2.
  by rewrite (Forall2_omap _ _ HQ HF).
Qed.

(** C3 (amended): each of the three AMP cells creates its [GradScaler]
    with [init_loss_scaling=1024] and, in every iteration, computes output
    and loss inside [auto_cast], calls [scaled = scaler.scale(loss)] and
    [scaled.backward()]; over the whole cell [backward] is called on the
    tensors [scale] returned and on nothing else.  In the O1 and O2 cells
    every iteration goes on with [scaler.minimize(optimizer, scaled)] and
    [optimizer.clear_grad()]; in the gradient-accumulation cell only the
    iterations with [(i + 1) % 10 = 0] do. *)
Theorem amp_loops_backward_on_scaled_loss (train_data labels : list Tensor)
    (mse : LossFn) (loss0 : option Tensor) (g : gmap string pyval) (w : W) :
  zip train_data labels ≠ [] →
  let items := concat (replicate 5 (enumerate (zip train_data labels))) in
  (let o := run (lift th) (amp_o1_cell train_data labels mse loss0) g w in
   ∃ model parameters optimizer scaler t0 iters loss text t1,
     o_result o = inr ()
     ∧ o_trace o
       = init_events 4096 4096 model
         ++ optimizer_events model parameters optimizer
         ++ [Ev (amp_GradScaler 1024) (inr scaler); Ev time_time (inr t0)]
         ++ concat iters
         ++ report_events loss text t0 t1 "使用AMP-O1模式耗时:"
     ∧ Forall2 (amp_iter no_args model optimizer scaler mse) items iters
     ∧ backward_args (o_trace o) = scale_results (o_trace o))
  ∧ (let o := run (lift th) (amp_o2_cell train_data labels mse loss0) g w in
     ∃ model0 parameters optimizer0 scaler model optimizer t0 iters loss
       text t1,
       o_result o = inr ()
       ∧ o_trace o
         = init_events 4096 4096 model0
           ++ optimizer_events model0 parameters optimizer0
           ++ [Ev (amp_GradScaler 1024) (inr scaler);
               Ev (amp_decorate model0 optimizer0 "O2" None None)
                  (inr (model, optimizer));
               Ev time_time (inr t0)]
           ++ concat iters
           ++ report_events loss text t0 t1 "使用AMP-O2模式耗时:"
       ∧ Forall2 (amp_iter o2_args model optimizer scaler mse) items iters
       ∧ backward_args (o_trace o) = scale_results (o_trace o))
  ∧ (let o := run (lift th) (accumulate_cell train_data labels mse loss0)
                g w in
     ∃ model parameters optimizer scaler t0 iters loss text t1,
       o_result o = inr ()
       ∧ o_trace o
         = init_events 4096 4096 model
           ++ optimizer_events model parameters optimizer
           ++ [Ev (amp_GradScaler 1024) (inr scaler); Ev time_time (inr t0)]
           ++ concat iters
           ++ report_events loss text t0 t1 "使用AMP模式耗时:"
       ∧ Forall2 (accumulate_iter model optimizer scaler mse) items iters
       ∧ backward_args (o_trace o) = scale_results (o_trace o)).
Proof.
  intros Hne items. split; [|split].
  - destruct (amp_o1_cell_shape th train_data labels mse loss0 g w Hne)
      as ([] & Hr & model & parameters & optimizer & scaler & t0 & iters
          & loss & text & t1 & Ht & HF & Hlast).
    exists model, parameters, optimizer, scaler, t0, iters, loss, text, t1.
    split; [done|]. split; [done|]. split; [done|].
    rewrite Ht, !app_assoc, <- (app_assoc _ (concat iters)).
    by eapply backward_on_scaled;
      [apply amp_iter_backward_scaled|exact HF|..].
  - destruct (amp_o2_cell_shape th train_data labels mse loss0 g w Hne)
      as ([] & Hr & model0 & parameters & optimizer0 & scaler & model
          & optimizer & t0 & iters & loss & text & t1 & Ht & HF & Hlast).
    exists model0, parameters, optimizer0, scaler, model, optimizer, t0,
      iters, loss, text, t1.
    split; [done|]. split; [done|]. split; [done|].
    rewrite Ht, !app_assoc, <- (app_assoc _ (concat iters)).
    by eapply backward_on_scaled;
      [apply amp_iter_backward_scaled|exact HF|..].
  - destruct (accumulate_cell_shape th train_data labels mse loss0 g w Hne)
      as ([] & Hr & model & parameters & optimizer & scaler & t0 & iters
          & loss & text & t1 & Ht & HF & Hlast).
    exists model, parameters, optimizer, scaler, t0, iters, loss, text, t1.
    split; [done|]. split; [done|]. split; [done|].
    rewrite Ht, !app_assoc, <- (app_assoc _ (concat iters)).
    by eapply backward_on_scaled;
      [apply accumulate_iter_backward_scaled|exact HF|..].
Qed.

Lemma never_decorates {W' R : Type} (h : handler W') (p : prog R) g w :
  straight not_decorate p → OpDecorate ∉ (op_of <$> o_trace (run h p g w)).
Proof.
  intros Hp Hin. pose proof (straight_ops h Hp g w) as HP.
  by apply (proj1 (Forall_forall _ _) HP _ Hin).
Qed.

(** C4: the O2 cell calls [paddle.amp.decorate(models=model,
    optimizers=optimizer, level='O2', master_weight=None,
    save_dtype=None)] after creating the scaler and before starting the
    timer, and the loops that follow use the model and optimizer that call
    returned; every [auto_cast] of the cell gets [enable=True,
    custom_white_list=None, custom_black_list=None, level='O2'].  The
    baseline, O1 and gradient-accumulation cells never call [decorate],
    whatever the framework answers. *)
Theorem only_o2_cell_decorates (train_data labels : list Tensor)
    (mse : LossFn) (loss0 : option Tensor) (g : gmap string pyval) (w : W) :
  zip train_data labels ≠ [] →
  (let o := run (lift th) (amp_o2_cell train_data labels mse loss0) g w in
   ∃ model0 parameters optimizer0 scaler model optimizer t0 iters loss
     text t1,
     o_result o = inr ()
     ∧ o_trace o
       = init_events 4096 4096 model0
         ++ optimizer_events model0 parameters optimizer0
         ++ [Ev (amp_GradScaler 1024) (inr scaler);
             Ev (amp_decorate model0 optimizer0 "O2" None None)
                (inr (model, optimizer));
             Ev time_time (inr t0)]
         ++ concat iters
         ++ report_events loss text t0 t1 "使用AMP-O2模式耗时:"
     ∧ Forall2
         (amp_iter {| enable := Some true; custom_white_list := Some None;
                      custom_black_list := Some None; level := Some "O2" |}
            model optimizer scaler mse)
         (concat (replicate 5 (enumerate (zip train_data labels)))) iters)
  ∧ ∀ (W' : Type) (h : handler W') (g' : gmap string pyval) (w' : W'),
      (OpDecorate
         ∉ (op_of <$> o_trace (run h (baseline_cell train_data labels mse
                                        loss0) g' w')))
      ∧ (OpDecorate
           ∉ (op_of <$> o_trace (run h (amp_o1_cell train_data labels mse
                                          loss0) g' w')))
      ∧ (OpDecorate
           ∉ (op_of <$> o_trace (run h (accumulate_cell train_data labels
                                          mse loss0) g' w'))).
Proof.
  intros Hne. split.
  - destruct (amp_o2_cell_shape th train_data labels mse loss0 g w Hne)
      as ([] & Hr & model0 & parameters & optimizer0 & scaler & model
          & optimizer & t0 & iters & loss & text & t1 & Ht & HF & Hlast).
    by exists model0, parameters, optimizer0, scaler, model, optimizer, t0,
      iters, loss, text, t1.
  - intros W' h g' w'.
    split; [apply never_decorates, straight_baseline|].
    split; [apply never_decorates, straight_amp_o1|].
    apply never_decorates, straight_accumulate.
Qed.

End Loops.

(** * The notebook against the counting framework *)

Example setup_cell_counted :
  o_result (run (lift counting) (setup_cell (host := handle_host)) ∅ 0%N)
  = inr (counted_batches, counted_labels, counted_mse).
Proof. by vm_compute. Qed.

(** C3, counterexample: in the gradient-accumulation cell [backward] is
    called 250 times and [scaler.minimize] 25 times. *)
Lemma accumulation_skips_minimize :
  ¬ steps_on_every_batch counted_accumulation.
Proof. unfold steps_on_every_batch. vm_compute. lia. Qed.

Example accumulation_counts :
  count_op OpScale counted_accumulation = 250%nat
  ∧ count_op OpBackward counted_accumulation = 250%nat
  ∧ count_op OpMinimize counted_accumulation = 25%nat
  ∧ count_op OpClearGrad counted_accumulation = 25%nat.
Proof. by vm_compute. Qed.

(** The first iteration of that cell ends with [backward]; the next call
    is the [auto_cast] of the second iteration. *)
Example accumulation_first_iterations :
  op_of <$> take 8 (drop 10 counted_accumulation)
  = scale_backward_ops ++ [OpAutoCast].
Proof. by vm_compute. Qed.

(** An exception of the framework in the middle of the baseline loop ends
    the cell with that exception, and nothing is printed. *)
Example baseline_cell_failing :
  let o := run (failing_at 20) (baseline_cell (host := handle_host)
             counted_batches counted_labels counted_mse None) ∅ 0%N in
  o_result o = inl (FrameworkError 20)
  ∧ length (o_trace o) = 21%nat
  ∧ stdout (o_trace o) = "".
Proof. by vm_compute. Qed.

(** An exception inside [auto_cast]: the block is left, nothing else is
    called. *)
Example amp_cell_failing :
  let o := run (failing_at 12) (amp_o1_cell (host := handle_host)
             counted_batches counted_labels counted_mse None) ∅ 0%N in
  o_result o = inl (FrameworkError 12)
  ∧ op_of <$> drop 10 (o_trace o)
    = [OpAutoCast; OpEnter; OpModelCall; OpExit].
Proof. by vm_compute. Qed.

(** Where the context manager swallows: the exception of [model(data)]
    is gone, and the first iteration goes on to read a [loss] that was
    never bound. *)
Example amp_cell_swallowing :
  let o := run (swallowing_at 12)
             (amp_o1_cell (host := handle_host)
                counted_batches counted_labels counted_mse None) ∅ 0%N in
  o_result o = inl (NameError "loss")
  ∧ failures (o_trace o) = [FrameworkError 12]
  ∧ op_of <$> drop 10 (o_trace o)
    = [OpAutoCast; OpEnter; OpModelCall; OpExit].
Proof. by vm_compute. Qed.

(** ** The theorems at the counting framework *)

Lemma forward_is_composition_witness :
  let o := run adding (forward adding_net 10%N) ∅ 0%N in
  o_result o = inr 16%N
  ∧ op_of <$> o_trace o
    = [OpLinearCall; OpReluCall; OpLinearCall; OpReluCall; OpLinearCall].
Proof.
  destruct (forward_is_composition (host := handle_host) adding_net 10%N)
    as (_ & Hpure).
  destruct (Hpure N adding N.add (λ _ x, x) ∅ 0%N) as (Hr & Hops).
  - reflexivity.
  - reflexivity.
  - split; [exact Hr|exact Hops].
Defined.

Lemma accumulation_updates_every_tenth_batch_witness :
  count_op OpMinimize counted_accumulation = 25%nat.
Proof.
  destruct (accumulation_updates_every_tenth_batch (host := handle_host)
              counting counted_batches counted_labels counted_mse None ∅
              101%N)
    as (model & parameters & optimizer & scaler & t0 & iters & loss & text
        & t1 & _ & _ & _ & _ & _ & Hcount).
  - reflexivity.
  - reflexivity.
  - exact Hcount.
Defined.

Lemma amp_loops_backward_on_scaled_loss_witness :
  backward_args counted_accumulation = scale_results counted_accumulation.
Proof.
  destruct (amp_loops_backward_on_scaled_loss (host := handle_host)
              counting counted_batches counted_labels counted_mse None ∅
              101%N)
    as (_ & _ & model & parameters & optimizer & scaler & t0 & iters & loss
        & text & t1 & _ & _ & _ & Hscaled).
  - vm_compute. discriminate.
  - exact Hscaled.
Defined.

Lemma only_o2_cell_decorates_witness :
  OpDecorate ∉ (op_of <$> counted_accumulation).
Proof.
  destruct (only_o2_cell_decorates (host := handle_host) counting
              counted_batches counted_labels counted_mse None ∅ 101%N)
    as (_ & Hnone).
  - vm_compute. discriminate.
  - exact (proj2 (proj2 (Hnone N (lift counting) ∅ 101%N))).
Defined.

Lemma regroup {A : Type} (a b c d e : list A) :
  a ++ b ++ c ++ d ++ e = (a ++ b ++ c) ++ d ++ e.
Proof. by rewrite !app_assoc. Qed.

Lemma baseline_loop_sequence_witness :
  ∃ iters : list (list (event (host := handle_host))),
    length iters = 250%nat
    ∧ ∃ pre post,
        o_trace (run (lift counting)
                   (baseline_cell (host := handle_host) counted_batches
                      counted_labels counted_mse None) ∅ 101%N)
        = pre ++ concat iters ++ post.
Proof.
  destruct (baseline_loop_sequence (host := handle_host) counting
              counted_batches counted_labels counted_mse None ∅ 101%N)
    as (model & parameters & optimizer & t0 & iters & loss & text & t1
        & _ & Ht & _ & Hlen & _).
  - reflexivity.
  - reflexivity.
  - exists iters. split; [exact Hlen|].
    eexists _, _. exact (eq_trans Ht (regroup _ _ _ _ _)).
Defined.

Lemma timer_pair_measures_elapsed_witness :
  ∃ t0 t1 : Z,
    stdout (o_trace (run (lift counting)
                       (end_timer_and_print (host := handle_host) "done")
                       (o_globals (run (lift counting) start_timer ∅ 0%N))
                       7%N))
    = nl +:+ "done" +:+ nl
      +:+ ("共计耗时 = " +:+ fmt3_ms (t1 - t0) +:+ " sec") +:+ nl.
Proof.
  destruct (timer_pair_measures_elapsed (host := handle_host) counting
              "done" ∅ 0%N) as (t0 & _ & _ & _ & Hend).
  destruct (Hend (o_globals (run (lift counting) start_timer ∅ 0%N)) 7%N)
    as (t1 & _ & _ & Hout).
  - reflexivity.
  - exists t0, t1. exact Hout.
Defined.

Lemma helpers_touch_only_start_time_witness :
  ∃ t0 t1 t2 : Z,
    started.1 !! "start_time" = Some (VFloat (host := handle_host) t0)
    ∧ stdout (o_trace (run (lift counting)
                         (end_timer_and_print (host := handle_host) "a"
                          ≫= λ _, end_timer_and_print "b")
                         started.1 started.2))
      = ((nl +:+ "a") +:+ nl)
        +:+ (("共计耗时 = " +:+ fmt3_ms (t1 - t0) +:+ " sec") +:+ nl)
        +:+ ((nl +:+ "b") +:+ nl)
        +:+ (("共计耗时 = " +:+ fmt3_ms (t2 - t0) +:+ " sec") +:+ nl)
        +:+ "".
Proof.
  destruct (helpers_touch_only_start_time (host := handle_host)
              (lift counting) [CallStart] "a" "b" ∅ 0%N)
    as (_ & _ & Htwice).
  destruct Htwice as (t0 & t1 & t2 & Hg & _ & Ht).
  - reflexivity.
  - exists t0, t1, t2. split; [exact Hg|].
    etrans; [exact (f_equal stdout Ht)|reflexivity].
Defined.

Lemma end_timer_needs_start_timer_witness :
  o_result (run (lift counting)
              (end_timer_and_print (host := handle_host) "b")
              unstarted.1 unstarted.2)
  = inl TypeError
  ∧ stdout (o_trace (run (lift counting)
                       (end_timer_and_print (host := handle_host) "b")
                       unstarted.1 unstarted.2))
    = nl +:+ "b" +:+ nl.
Proof.
  destruct (end_timer_needs_start_timer (host := handle_host) counting
              [CallEnd "a"] "b" ∅ 0%N) as (_ & _ & Hfail).
  destruct Hfail as (t1 & Hr & _ & Hout).
  - by intros [=]%list_elem_of_singleton.
  - split; [exact Hr|exact Hout].
Defined.

Lemma SimpleNet_needs_equal_sizes_witness :
  o_result (run shapes
              (model ← SimpleNet_init (host := shape_host) 3 4;
               forward (host := shape_host) model (8, 3)) ∅ ())
  = inl (FrameworkError 0).
Proof.
  destruct SimpleNet_needs_equal_sizes as (_ & Hshape & _).
  destruct (Hshape 3 4 8 ∅) as (_ & Hfail).
  apply Hfail. lia.
Defined.

Lemma authored_code_handles_no_exception_witness :
  o_result interrupted_baseline = inl (FrameworkError 20)
  ∧ managers_pass (o_trace interrupted_amp)
  ∧ o_result interrupted_amp = inl (FrameworkError 12).
Proof.
  destruct (authored_code_handles_no_exception (host := handle_host) ""
              0 0 adding_net 0%N counted_batches counted_labels counted_mse
              None) as (_ & _ & _ & _ & (_ & Hplain) & (_ & Hwith) & _).
  assert (Hpass : managers_pass (o_trace interrupted_amp)).
  { apply (bool_decide_unpack _). vm_compute. exact I. }
  split; [|split; [exact Hpass|]].
  - refine (proj1 (Hplain N (failing_at 20) ∅ 0%N
                     (take 20 (o_trace interrupted_baseline)) _
                     (loss_call (host := handle_host) 100%N 19%N 52%N)
                     (FrameworkError 20) [] _)).
    reflexivity.
  - refine (proj1 (proj2 (Hwith N (failing_at 12) ∅ 0%N) Hpass
                     (take 12 (o_trace interrupted_amp)) _
                     (model_call (host := handle_host) counted_net
                        0%N)
                     (FrameworkError 12)
                     [Ev (guard_exit_exc (host := handle_host) 10%N
                            (FrameworkError 12)) (inr false)] _)).
    reflexivity.
Defined.

(** * Further properties of the cells *)

(** ** The data cell and the timer *)

Section Setup_and_timer.
Context `{host : Host} {W : Type} (th : total_handler W).

Lemma post_comprehension_answers {A : Type} (n : nat) (c : api A) g w :
  post (lift th) (comprehension n (call c)) g w
    (λ l g' tr, g' = g ∧ length l = n
                ∧ tr = (λ x, Ev c (inr x)) <$> l).
Proof.
  revert w. induction n as [|n IH]; intros w; [by apply post_ret|].
  simpl. apply post_call; intros x w1.
  eapply post_seq; [apply IH|].
  intros l g1 tr1 w2 (-> & Hl & ->). apply post_ret.
  split; [done|]. simpl. by rewrite app_nil_r, Hl.
Qed.

(** X1: the data cell completes against every framework that does not
    raise.  It calls [paddle.randn((512, 4096))] 50 times for the batches
    and 50 times for the labels, then [paddle.nn.MSELoss()], and makes no
    other call; [train_data] and [labels] are the answers to those calls
    in call order. *)
Theorem setup_cell_keeps_the_answers (g : gmap string pyval) (w : W) :
  let o := run (lift th) setup_cell g w in
  ∃ train_data labels mse,
    o_result o = inr (train_data, labels, mse)
    ∧ length train_data = 50%nat
    ∧ length labels = 50%nat
    ∧ o_trace o
      = ((λ x, Ev (paddle_randn (512, 4096)) (inr x)) <$> train_data)
        ++ ((λ x, Ev (paddle_randn (512, 4096)) (inr x)) <$> labels)
        ++ [Ev nn_MSELoss (inr mse)].
Proof.
  intros o.
  assert (post (lift th) setup_cell g w
            (λ r g' tr,
               g' = g ∧ length r.1.1 = 50%nat ∧ length r.1.2 = 50%nat
               ∧ tr = ((λ x, Ev (paddle_randn (512, 4096)) (inr x))
                         <$> r.1.1)
                      ++ ((λ x, Ev (paddle_randn (512, 4096)) (inr x))
                            <$> r.1.2)
                      ++ [Ev nn_MSELoss (inr r.2)]))
    as ([[train_data labels] mse] & Hr & Hg & Hl1 & Hl2 & Ht).
  { unfold setup_cell.
    eapply post_seq; [apply post_comprehension_answers|].
    intros train_data g1 tr1 w1 (-> & Hl1 & ->).
    eapply post_seq; [apply post_comprehension_answers|].
    intros labels g2 tr2 w2 (-> & Hl2 & ->).
    apply post_call; intros mse w3. by apply post_ret. }
  by exists train_data, labels, mse.
Qed.

(** X2: what [end_timer_and_print(msg)] does by the binding of
    [start_time], against a framework that does not raise.  Bound to a
    float, the call completes.  Unbound, it ends in [NameError]; bound to
    [None], as the timer cell leaves it, or to a string, it ends in
    [TypeError].  In the three failing cases the message after a line
    break is all it has printed: the exception comes from the elapsed-time
    line, after [msg] is out. *)
Theorem end_timer_by_start_time (msg : string) (g : gmap string pyval)
    (w : W) :
  let o := run (lift th) (end_timer_and_print msg) g w in
  (∀ t0, g !! "start_time" = Some (VFloat t0) → o_result o = inr ())
  ∧ (g !! "start_time" = None →
     o_result o = inl (NameError "start_time")
     ∧ prints (o_trace o) = [nl +:+ msg])
  ∧ (g !! "start_time" = Some VNone →
     o_result o = inl TypeError ∧ prints (o_trace o) = [nl +:+ msg])
  ∧ (∀ s, g !! "start_time" = Some (VStr s) →
     o_result o = inl TypeError ∧ prints (o_trace o) = [nl +:+ msg]).
Proof.
  intros o.
  assert (Hother : ∀ v, g !! "start_time" = Some v →
    (∀ t0, v ≠ VFloat t0) →
    o_result o = inl TypeError ∧ prints (o_trace o) = [nl +:+ msg]).
  { intros v Hg Hv.
    destruct (run_end_timer_unset th msg g w Hg Hv) as (t1 & Hr & Ht).
    split; [done|]. subst o. by rewrite Ht. }
  split; [|split; [|split]].
  - intros t0 Hg.
    by destruct (run_end_timer th msg g w Hg) as (t1 & Hr & _).
  - intros Hg. subst o. unfold end_timer_and_print. simpl.
    rewrite lift_eq. destruct (th time_time w) as [w1 t1]. simpl.
    rewrite lift_eq. destruct (th (print (nl +:+ msg)) w1) as [w2 []].
    simpl. by rewrite Hg.
  - intros Hg. by apply (Hother VNone).
  - intros s Hg. by apply (Hother (VStr s)).
Qed.

(** X3: the elapsed time is counted from the most recent [start_timer()].
    Whatever calls of the helpers came before a call of [start_timer()],
    and whatever calls of [end_timer_and_print] came after it, the next
    [end_timer_and_print(msg)] completes and prints the difference between
    its own clock reading and the reading of that [start_timer()]. *)
Theorem elapsed_counts_from_last_start (before after : list timer_call)
    (msg : string) (g : gmap string pyval) (w : W) :
  CallStart ∉ after →
  let s1 := session (lift th) before g w in
  let o1 := run (lift th) start_timer s1.1 s1.2 in
  let s2 := session (lift th) after (o_globals o1) (o_world o1) in
  let o2 := run (lift th) (end_timer_and_print msg) s2.1 s2.2 in
  ∃ t0 t1,
    o_trace o1 = [Ev time_time (inr t0)]
    ∧ o_result o2 = inr ()
    ∧ o_trace o2
      = [ Ev time_time (inr t1);
          Ev (print (nl +:+ msg)) (inr ());
          Ev (print ("共计耗时 = " +:+ fmt3 (fsub t1 t0) +:+ " sec"))
             (inr ()) ].
Proof.
  intros Hafter s1 o1 s2 o2.
  destruct (run_start_timer th s1.1 s1.2) as (t0 & _ & Ht0 & Hg1).
  fold o1 in Ht0, Hg1.
  assert (Hs2 : s2.1 !! "start_time" = Some (VFloat t0)).
  { subst s2.
    destruct (session_start_time th after (o_globals o1) (o_world o1)
                (v := VFloat t0)) as [_ Hkeep].
    - rewrite Hg1. apply lookup_insert_eq.
    - by apply Hkeep. }
  destruct (run_end_timer th msg s2.1 s2.2 Hs2) as (t1 & Hr & Ht1).
  by exists t0, t1.
Qed.

End Setup_and_timer.

(** ** Cells without data *)

Section Idle.
Context `{host : Host} {W : Type} (th : total_handler W).

Lemma fails_mono {R : Type} (h : handler W) (p : prog R) g w
    (Q Q' : exn → gmap string pyval → list event → Prop) :
  fails h p g w Q → (∀ e g' tr, Q e g' tr → Q' e g' tr) → fails h p g w Q'.
Proof. intros (e & He & HQ) HQQ'. exists e. auto. Qed.

Lemma fails_fault {R : Type} (h : handler W) (e : exn) g w
    (Q : exn → gmap string pyval → list event → Prop) :
  Q e g [] → fails h (@Fault _ R e) g w Q.
Proof. intros HQ. by exists e. Qed.

Lemma fails_seq {A B : Type} (h : handler W) (p : prog A) (f : A → prog B)
    g w (Q1 : A → gmap string pyval → list event → Prop)
    (Q : exn → gmap string pyval → list event → Prop) :
  post h p g w Q1 →
  (∀ a g1 tr1 w1, Q1 a g1 tr1 →
     fails h (f a) g1 w1 (λ e g2 tr2, Q e g2 (tr1 ++ tr2))) →
  fails h (p ≫= f) g w Q.
Proof.
  intros (a & Ha & HQ1) Hf.
  destruct (Hf _ _ _ (o_world (run h p g w)) HQ1) as (e & He & HQ).
  exists e. rewrite run_bind. unfold andthen. rewrite Ha. simpl. auto.
Qed.

Lemma fails_call {R X : Type} (c : api X) (f : X → prog R) g w
    (Q : exn → gmap string pyval → list event → Prop) :
  (∀ x w', fails (lift th) (f x) g w'
             (λ e g' tr, Q e g' (Ev c (inr x) :: tr))) →
  fails (lift th) (call c ≫= f) g w Q.
Proof.
  intros Hk. unfold fails.
  change (call c ≫= f) with (Do c (λ x, bind (Ret x) f)).
  simpl. rewrite lift_eq. apply Hk.
Qed.

(** With no pair to iterate over, the two loops of a cell leave [loss] as
    it was. *)
Lemma for_each_no_data {A : Type}
    (body : Z * A → option Tensor → prog (option Tensor))
    (loss0 : option Tensor) :
  for_each (range epochs) loss0
    (λ epoch loss, for_each (enumerate ([] : list A)) loss body)
  = mret loss0.
Proof. done. Qed.

Tactic Notation "idle_none" integer(n) :=
  eapply fails_seq; [apply post_init|];
  intros ? ? ? ? (-> & ->);
  do n (apply fails_call; intros ? ?;
        try match goal with x : (_ * _)%type |- _ => destruct x end);
  eapply fails_seq; [apply post_start_timer|];
  intros [] ? ? ? (? & -> & ->);
  apply fails_fault.

Tactic Notation "idle_some" integer(n) constr(loss) constr(msg) :=
  eapply post_seq; [apply post_init|];
  intros ? ? ? ? (-> & ->);
  do n (apply post_call; intros ? ?;
        try match goal with x : (_ * _)%type |- _ => destruct x end);
  eapply post_seq; [apply post_start_timer|];
  intros [] ? ? ? (? & -> & ->);
  eapply post_mono; [apply (post_report th loss msg), lookup_insert_eq|].

Lemma idle_outcome_intro (ops : list op) msg loss0 g (o : outcome W ())
    (pre : list event) t0 :
  op_of <$> pre = ops →
  o_globals o = <["start_time" := VFloat t0]> g →
  match loss0 with
  | None =>
      o_result o = inl (NameError "loss")
      ∧ o_trace o = pre ++ [Ev time_time (inr t0)]
  | Some loss =>
      ∃ text t1,
        o_result o = inr ()
        ∧ o_trace o
          = pre ++ [Ev time_time (inr t0)]
            ++ report_events loss text t0 t1 msg
  end →
  idle_outcome ops msg loss0 g o.
Proof.
  intros Hops Hg Ho. exists (pre ++ [Ev time_time (inr t0)]), t0.
  split; [by rewrite fmap_app, Hops|]. split; [by rewrite last_snoc|].
  split; [by rewrite Hg, lookup_insert_eq|].
  destruct loss0 as [loss|]; [|done].
  destruct Ho as (text & t1 & Hr & Ht). exists text, t1.
  by rewrite <- app_assoc.
Qed.

Lemma idle_baseline train_data labels mse loss0 g w :
  zip train_data labels = [] →
  idle_outcome (construction_ops false false) "默认耗时:" loss0 g
    (run (lift th) (baseline_cell train_data labels mse loss0) g w).
Proof.
  intros Hz. destruct loss0 as [loss|].
  - assert (post (lift th) (baseline_cell train_data labels mse (Some loss))
              g w
              (λ _ g' tr, ∃ pre t0 text t1,
                 tr = pre ++ [Ev time_time (inr t0)]
                      ++ report_events loss text t0 t1 "默认耗时:"
                 ∧ op_of <$> pre = construction_ops false false
                 ∧ g' = <["start_time" := VFloat t0]> g))
      as ([] & Hr & pre & t0 & text & t1 & Ht & Hops & Hg).
    { unfold baseline_cell. rewrite Hz. idle_some 2 loss "默认耗时:".
      intros [] g' tr (-> & text & t1 & ->).
      eexists (init_events _ _ _ ++ [_; _]), _, text, t1.
      split; [by rewrite <- app_assoc|]. by split. }
    eapply idle_outcome_intro; [exact Hops|exact Hg|]. by exists text, t1.
  - assert (fails (lift th) (baseline_cell train_data labels mse None) g w
              (λ e g' tr, ∃ pre t0,
                 tr = pre ++ [Ev time_time (inr t0)]
                 ∧ e = NameError "loss"
                 ∧ op_of <$> pre = construction_ops false false
                 ∧ g' = <["start_time" := VFloat t0]> g))
      as (e & He & pre & t0 & Ht & -> & Hops & Hg).
    { unfold baseline_cell. rewrite Hz. idle_none 2.
      eexists (init_events _ _ _ ++ [_; _]), _.
      split; [by rewrite <- app_assoc|]. by split. }
    by eapply idle_outcome_intro.
Qed.

Lemma idle_amp_o1 train_data labels mse loss0 g w :
  zip train_data labels = [] →
  idle_outcome (construction_ops true false) "使用AMP-O1模式耗时:" loss0 g
    (run (lift th) (amp_o1_cell train_data labels mse loss0) g w).
Proof.
  intros Hz. destruct loss0 as [loss|].
  - assert (post (lift th) (amp_o1_cell train_data labels mse (Some loss))
              g w
              (λ _ g' tr, ∃ pre t0 text t1,
                 tr = pre ++ [Ev time_time (inr t0)]
                      ++ report_events loss text t0 t1 "使用AMP-O1模式耗时:"
                 ∧ op_of <$> pre = construction_ops true false
                 ∧ g' = <["start_time" := VFloat t0]> g))
      as ([] & Hr & pre & t0 & text & t1 & Ht & Hops & Hg).
    { unfold amp_o1_cell. rewrite Hz. idle_some 3 loss "使用AMP-O1模式耗时:".
      intros [] g' tr (-> & text & t1 & ->).
      eexists (init_events _ _ _ ++ [_; _; _]), _, text, t1.
      split; [by rewrite <- app_assoc|]. by split. }
    eapply idle_outcome_intro; [exact Hops|exact Hg|]. by exists text, t1.
  - assert (fails (lift th) (amp_o1_cell train_data labels mse None) g w
              (λ e g' tr, ∃ pre t0,
                 tr = pre ++ [Ev time_time (inr t0)]
                 ∧ e = NameError "loss"
                 ∧ op_of <$> pre = construction_ops true false
                 ∧ g' = <["start_time" := VFloat t0]> g))
      as (e & He & pre & t0 & Ht & -> & Hops & Hg).
    { unfold amp_o1_cell. rewrite Hz. idle_none 3.
      eexists (init_events _ _ _ ++ [_; _; _]), _.
      split; [by rewrite <- app_assoc|]. by split. }
    by eapply idle_outcome_intro.
Qed.

Lemma idle_amp_o2 train_data labels mse loss0 g w :
  zip train_data labels = [] →
  idle_outcome (construction_ops true true) "使用AMP-O2模式耗时:" loss0 g
    (run (lift th) (amp_o2_cell train_data labels mse loss0) g w).
Proof.
  intros Hz. destruct loss0 as [loss|].
  - assert (post (lift th) (amp_o2_cell train_data labels mse (Some loss))
              g w
              (λ _ g' tr, ∃ pre t0 text t1,
                 tr = pre ++ [Ev time_time (inr t0)]
                      ++ report_events loss text t0 t1 "使用AMP-O2模式耗时:"
                 ∧ op_of <$> pre = construction_ops true true
                 ∧ g' = <["start_time" := VFloat t0]> g))
      as ([] & Hr & pre & t0 & text & t1 & Ht & Hops & Hg).
    { unfold amp_o2_cell. rewrite Hz. idle_some 4 loss "使用AMP-O2模式耗时:".
      intros [] g' tr (-> & text & t1 & ->).
      eexists (init_events _ _ _ ++ [_; _; _; _]), _, text, t1.
      split; [by rewrite <- app_assoc|]. by split. }
    eapply idle_outcome_intro; [exact Hops|exact Hg|]. by exists text, t1.
  - assert (fails (lift th) (amp_o2_cell train_data labels mse None) g w
              (λ e g' tr, ∃ pre t0,
                 tr = pre ++ [Ev time_time (inr t0)]
                 ∧ e = NameError "loss"
                 ∧ op_of <$> pre = construction_ops true true
                 ∧ g' = <["start_time" := VFloat t0]> g))
      as (e & He & pre & t0 & Ht & -> & Hops & Hg).
    { unfold amp_o2_cell. rewrite Hz. idle_none 4.
      eexists (init_events _ _ _ ++ [_; _; _; _]), _.
      split; [by rewrite <- app_assoc|]. by split. }
    by eapply idle_outcome_intro.
Qed.

Lemma idle_accumulate train_data labels mse loss0 g w :
  zip train_data labels = [] →
  idle_outcome (construction_ops true false) "使用AMP模式耗时:" loss0 g
    (run (lift th) (accumulate_cell train_data labels mse loss0) g w).
Proof.
  intros Hz. destruct loss0 as [loss|].
  - assert (post (lift th) (accumulate_cell train_data labels mse (Some loss))
              g w
              (λ _ g' tr, ∃ pre t0 text t1,
                 tr = pre ++ [Ev time_time (inr t0)]
                      ++ report_events loss text t0 t1 "使用AMP模式耗时:"
                 ∧ op_of <$> pre = construction_ops true false
                 ∧ g' = <["start_time" := VFloat t0]> g))
      as ([] & Hr & pre & t0 & text & t1 & Ht & Hops & Hg).
    { unfold accumulate_cell. rewrite Hz. idle_some 3 loss "使用AMP模式耗时:".
      intros [] g' tr (-> & text & t1 & ->).
      eexists (init_events _ _ _ ++ [_; _; _]), _, text, t1.
      split; [by rewrite <- app_assoc|]. by split. }
    eapply idle_outcome_intro; [exact Hops|exact Hg|]. by exists text, t1.
  - assert (fails (lift th) (accumulate_cell train_data labels mse None) g w
              (λ e g' tr, ∃ pre t0,
                 tr = pre ++ [Ev time_time (inr t0)]
                 ∧ e = NameError "loss"
                 ∧ op_of <$> pre = construction_ops true false
                 ∧ g' = <["start_time" := VFloat t0]> g))
      as (e & He & pre & t0 & Ht & -> & Hops & Hg).
    { unfold accumulate_cell. rewrite Hz. idle_none 3.
      eexists (init_events _ _ _ ++ [_; _; _]), _.
      split; [by rewrite <- app_assoc|]. by split. }
    by eapply idle_outcome_intro.
Qed.

(** X4: a training cell whose [zip(train_data, labels)] is empty makes no
    training call.  It builds the network and the optimizer (and the
    scaler, and calls [decorate], where the cell has them), starts the
    timer, and goes to [print(loss)]: when [loss] was unbound the cell
    ends there in [NameError] with nothing printed and the timer started;
    when an earlier cell left a [loss], that stale loss is printed and the
    elapsed-time report follows. *)
Theorem cells_without_data (train_data labels : list Tensor) (mse : LossFn)
    (loss0 : option Tensor) (g : gmap string pyval) (w : W) :
  zip train_data labels = [] →
  idle_outcome (construction_ops false false) "默认耗时:" loss0 g
    (run (lift th) (baseline_cell train_data labels mse loss0) g w)
  ∧ idle_outcome (construction_ops true false) "使用AMP-O1模式耗时:" loss0 g
      (run (lift th) (amp_o1_cell train_data labels mse loss0) g w)
  ∧ idle_outcome (construction_ops true true) "使用AMP-O2模式耗时:" loss0 g
      (run (lift th) (amp_o2_cell train_data labels mse loss0) g w)
  ∧ idle_outcome (construction_ops true false) "使用AMP模式耗时:" loss0 g
      (run (lift th) (accumulate_cell train_data labels mse loss0) g w).
Proof.
  intros Hz.
  split; [by apply idle_baseline|].
  split; [by apply idle_amp_o1|].
  split; [by apply idle_amp_o2|].
  by apply idle_accumulate.
Qed.

End Idle.

(** ** What the loops are fed and what the cells print *)

Section Data.
Context `{host : Host} {W : Type} (th : total_handler W).

Lemma snd_enumerate_from {A : Type} (l : list A) i :
  (enumerate_from i l).*2 = l.
Proof.
  revert i. induction l as [|x l IH]; intros i; [done|].
  simpl. by rewrite IH.
Qed.

Lemma fst_zip_take {A B : Type} (l : list A) (k : list B) :
  (zip l k).*1 = take (length k) l.
Proof.
  revert k. induction l as [|x l IH]; intros [|y k]; simpl; try done.
  by rewrite IH.
Qed.

Lemma snd_zip_take {A B : Type} (l : list A) (k : list B) :
  (zip l k).*2 = take (length l) k.
Proof.
  revert k. induction l as [|x l IH]; intros [|y k]; simpl; try done.
  by rewrite IH.
Qed.

(** One value read off each iteration gives one value per item. *)
Lemma Forall2_reads {A B : Type} (Qi : A → list event → Prop)
    (f : event → option B) (v : A → B) (items : list A)
    (iters : list (list event)) :
  (∀ x evs, Qi x evs → omap f evs = [v x]) →
  Forall2 Qi items iters →
  omap f (concat iters) = v <$> items.
Proof.
  intros Hf. induction 1 as [|x evs items iters HQ _ IH]; [done|].
  simpl. by rewrite omap_app, IH, (Hf x evs HQ).
Qed.

Lemma reads_epochs {A B : Type} (v : A → B) (items : list A) :
  v <$> concat (replicate 5 items) = concat (replicate 5 (v <$> items)).
Proof. simpl. by rewrite !fmap_app, !fmap_nil. Qed.

Lemma batch_of_item (z : list (Tensor * Tensor)) :
  (λ item : Z * (Tensor * Tensor), item.2.1) <$> enumerate z = z.*1.
Proof.
  change (λ item : Z * (Tensor * Tensor), item.2.1)
    with ((fst : Tensor * Tensor → Tensor)
          ∘ (snd : Z * (Tensor * Tensor) → Tensor * Tensor)).
  rewrite list_fmap_compose. unfold enumerate.
  by rewrite snd_enumerate_from.
Qed.

Lemma label_of_item (z : list (Tensor * Tensor)) :
  (λ item : Z * (Tensor * Tensor), item.2.2) <$> enumerate z = z.*2.
Proof.
  change (λ item : Z * (Tensor * Tensor), item.2.2)
    with ((snd : Tensor * Tensor → Tensor)
          ∘ (snd : Z * (Tensor * Tensor) → Tensor * Tensor)).
  rewrite list_fmap_compose. unfold enumerate.
  by rewrite snd_enumerate_from.
Qed.

(** A log without a call of a given name has nothing to read for it. *)
Lemma no_reads {B : Type} (f : event → option B) (o : op)
    (tr : list event) :
  (∀ ev, is_Some (f ev) → op_of ev = o) →
  o ∉ (op_of <$> tr) → omap f tr = [].
Proof.
  intros Hf. induction tr as [|ev tr IH]; [done|].
  rewrite fmap_cons, not_elem_of_cons. intros [Hev Htr]. simpl.
  destruct (f ev) as [b|] eqn:Hb; [|by apply IH].
  destruct Hev. symmetry. apply Hf. by rewrite Hb.
Qed.

Lemma model_input_op ev : is_Some (model_input ev) → op_of ev = OpModelCall.
Proof. destruct ev as [X c r]. by destruct c; intros [? [=]]. Qed.

Lemma loss_label_op ev : is_Some (loss_label ev) → op_of ev = OpLossCall.
Proof. destruct ev as [X c r]. by destruct c; intros [? [=]]. Qed.

Lemma model_inputs_none (tr : list event) :
  OpModelCall ∉ (op_of <$> tr) → omap model_input tr = [].
Proof. apply no_reads, model_input_op. Qed.

Lemma loss_labels_none (tr : list event) :
  OpLossCall ∉ (op_of <$> tr) → omap loss_label tr = [].
Proof. apply no_reads, loss_label_op. Qed.

Lemma fed_intro (train_data labels : list Tensor)
    (Qi : Z * (Tensor * Tensor) → list event → Prop)
    (pre0 post0 : list event) (iters : list (list event)) :
  OpModelCall ∉ (op_of <$> pre0) → OpLossCall ∉ (op_of <$> pre0) →
  OpModelCall ∉ (op_of <$> post0) → OpLossCall ∉ (op_of <$> post0) →
  (∀ x evs, Qi x evs → omap model_input evs = [x.2.1]) →
  (∀ x evs, Qi x evs → omap loss_label evs = [x.2.2]) →
  Forall2 Qi (concat (replicate 5 (enumerate (zip train_data labels))))
    iters →
  fed_every_pair train_data labels (pre0 ++ concat iters ++ post0).
Proof.
  intros Hm1 Hl1 Hm2 Hl2 Hm Hl HF. unfold fed_every_pair, model_inputs,
    loss_labels.
  rewrite !omap_app.
  rewrite (model_inputs_none pre0), (model_inputs_none post0),
    (loss_labels_none pre0), (loss_labels_none post0) by done.
  rewrite (Forall2_reads _ _ Hm HF), (Forall2_reads _ _ Hl HF).
  rewrite !reads_epochs, batch_of_item, label_of_item, fst_zip_take,
    snd_zip_take.
  simpl. by rewrite ?app_nil_r.
Qed.

Lemma baseline_iter_reads model optimizer mse item evs :
  baseline_iter model optimizer mse item evs →
  omap model_input evs = [item.2.1] ∧ omap loss_label evs = [item.2.2].
Proof. by intros (output & loss & ->). Qed.

Lemma amp_iter_reads args model optimizer scaler mse item evs :
  amp_iter args model optimizer scaler mse item evs →
  omap model_input evs = [item.2.1] ∧ omap loss_label evs = [item.2.2].
Proof. by intros (guard & output & loss & scaled & ->). Qed.

Lemma accumulate_iter_reads model optimizer scaler mse item evs :
  accumulate_iter model optimizer scaler mse item evs →
  omap model_input evs = [item.2.1] ∧ omap loss_label evs = [item.2.2].
Proof.
  intros (guard & output & loss & scaled & ->).
  by destruct (decide ((item.1 + 1) `mod` 10 = 0)).
Qed.

Lemma not_in_ops (o : op) (l : list op) :
  bool_decide (o ∈ l) = false → o ∉ l.
Proof. intros Hb Hin. by apply (bool_decide_pack _) in Hin; rewrite Hb in Hin. Qed.

Lemma idle_fed (ops : list op) msg loss0 g (o : outcome W ())
    (train_data labels : list Tensor) :
  zip train_data labels = [] →
  bool_decide (OpModelCall ∈ ops) = false →
  bool_decide (OpLossCall ∈ ops) = false →
  idle_outcome ops msg loss0 g o →
  fed_every_pair train_data labels (o_trace o).
Proof.
  intros Hz Hm%not_in_ops Hl%not_in_ops
    (pre & t0 & Hops & _ & _ & Ho).
  assert (Hm' : OpModelCall ∉ (op_of <$> pre)).
  { rewrite Hops, not_elem_of_app. split; [done|]. by apply not_in_ops. }
  assert (Hl' : OpLossCall ∉ (op_of <$> pre)).
  { rewrite Hops, not_elem_of_app. split; [done|]. by apply not_in_ops. }
  assert (Hempty : fed_every_pair train_data labels pre).
  { unfold fed_every_pair, model_inputs, loss_labels.
    rewrite model_inputs_none, loss_labels_none by done.
    by rewrite <- fst_zip_take, <- snd_zip_take, Hz. }
  destruct loss0 as [loss|].
  - destruct Ho as (text & t1 & _ & ->).
    destruct Hempty as [Hi Hla]. unfold fed_every_pair, model_inputs,
      loss_labels in *.
    rewrite !omap_app, Hi, Hla. simpl. by rewrite !app_nil_r.
  - by destruct Ho as [_ ->].
Qed.

(** X5: in every training cell, and for lists of any lengths, the model
    is called on the batches and the loss function on the labels in list
    order, five times over, each list cut to the length of the shorter
    one; a batch or label beyond that length is never passed to the
    framework. *)
Theorem cells_feed_every_pair_per_epoch (train_data labels : list Tensor)
    (mse : LossFn) (loss0 : option Tensor) (g : gmap string pyval) (w : W) :
  fed_every_pair train_data labels
    (o_trace (run (lift th) (baseline_cell train_data labels mse loss0)
                g w))
  ∧ fed_every_pair train_data labels
      (o_trace (run (lift th) (amp_o1_cell train_data labels mse loss0)
                  g w))
  ∧ fed_every_pair train_data labels
      (o_trace (run (lift th) (amp_o2_cell train_data labels mse loss0)
                  g w))
  ∧ fed_every_pair train_data labels
      (o_trace (run (lift th) (accumulate_cell train_data labels mse loss0)
                  g w)).
Proof.
  destruct (decide (zip train_data labels = [])) as [Hz|Hne].
  { split; [|split; [|split]].
    - eapply idle_fed; [done| | |by apply idle_baseline]; done.
    - eapply idle_fed; [done| | |by apply idle_amp_o1]; done.
    - eapply idle_fed; [done| | |by apply idle_amp_o2]; done.
    - eapply idle_fed; [done| | |by apply idle_accumulate]; done. }
  split; [|split; [|split]].
  - destruct (baseline_cell_shape th train_data labels mse loss0 g w Hne)
      as ([] & _ & model & parameters & optimizer & t0 & iters & loss
          & text & t1 & -> & HF & _).
    rewrite regroup.
    eapply fed_intro; [by apply not_in_ops..| | |exact HF];
      intros x evs Hx; by apply baseline_iter_reads in Hx as [? ?].
  - destruct (amp_o1_cell_shape th train_data labels mse loss0 g w Hne)
      as ([] & _ & model & parameters & optimizer & scaler & t0 & iters
          & loss & text & t1 & -> & HF & _).
    rewrite regroup.
    eapply fed_intro; [by apply not_in_ops..| | |exact HF];
      intros x evs Hx; by apply amp_iter_reads in Hx as [? ?].
  - destruct (amp_o2_cell_shape th train_data labels mse loss0 g w Hne)
      as ([] & _ & model0 & parameters & optimizer0 & scaler & model
          & optimizer & t0 & iters & loss & text & t1 & -> & HF & _).
    rewrite regroup.
    eapply fed_intro; [by apply not_in_ops..| | |exact HF];
      intros x evs Hx; by apply amp_iter_reads in Hx as [? ?].
  - destruct (accumulate_cell_shape th train_data labels mse loss0 g w
                Hne)
      as ([] & _ & model & parameters & optimizer & scaler & t0 & iters
          & loss & text & t1 & -> & HF & _).
    rewrite regroup.
    eapply fed_intro; [by apply not_in_ops..| | |exact HF];
      intros x evs Hx; by apply accumulate_iter_reads in Hx as [? ?].
Qed.

Lemma print_arg_op ev : op_of ev ≠ OpPrint → print_arg ev = None.
Proof. destruct ev as [X c r]; by destruct c. Qed.

Lemma prints_silent (tr : list event) :
  OpPrint ∉ (op_of <$> tr) → prints tr = [].
Proof.
  induction tr as [|ev tr IH]; [done|].
  rewrite fmap_cons, not_elem_of_cons. intros [Hev Htr].
  unfold prints in *. simpl. rewrite print_arg_op by done. by apply IH.
Qed.

Lemma computed_loss_op ev :
  is_Some (computed_loss ev) → op_of ev = OpLossCall.
Proof. destruct ev as [X c [e|x]]; by destruct c; intros [? [=]]. Qed.

Lemma Forall2_no_op {A : Type} (Qi : A → list event → Prop) (o : op)
    (items : list A) (iters : list (list event)) :
  (∀ x evs, Qi x evs → o ∉ (op_of <$> evs)) →
  Forall2 Qi items iters → o ∉ (op_of <$> concat iters).
Proof.
  intros Ho. induction 1 as [|x evs items iters HQ _ IH].
  - apply not_elem_of_nil.
  - simpl. rewrite fmap_app, not_elem_of_app. split; [by eapply Ho|done].
Qed.

Lemma report_intro {A : Type} (Qi : A → list event → Prop) msg
    (pre0 : list event) (items : list A) (iters : list (list event))
    loss text t0 t1 :
  bool_decide (OpPrint ∈ (op_of <$> pre0)) = false →
  bool_decide (OpLossCall ∈ (op_of <$> pre0)) = false →
  (∀ x evs, Qi x evs → OpPrint ∉ (op_of <$> evs)) →
  Forall2 Qi items iters →
  last (computed_losses (concat iters)) = Some loss →
  reports_last_loss msg
    (pre0 ++ concat iters ++ report_events loss text t0 t1 msg).
Proof.
  intros Hp%not_in_ops Hl%not_in_ops HQ HF Hlast.
  assert (Hquiet : OpPrint ∉ (op_of <$> pre0 ++ concat iters)).
  { rewrite fmap_app, not_elem_of_app. split; [done|].
    by eapply Forall2_no_op. }
  exists (pre0 ++ concat iters), loss, text, t0, t1.
  split; [by rewrite <- app_assoc|]. split; [|split; [done|]].
  - unfold computed_losses in *. rewrite omap_app, last_app, Hlast. done.
  - rewrite app_assoc. unfold prints. rewrite omap_app.
    fold (prints (pre0 ++ concat iters)). by rewrite prints_silent.
Qed.

Lemma baseline_iter_silent model optimizer mse item evs :
  baseline_iter model optimizer mse item evs → OpPrint ∉ (op_of <$> evs).
Proof. intros (output & loss & ->). by apply not_in_ops. Qed.

Lemma amp_iter_silent args model optimizer scaler mse item evs :
  amp_iter args model optimizer scaler mse item evs →
  OpPrint ∉ (op_of <$> evs).
Proof.
  intros (guard & output & loss & scaled & ->). by apply not_in_ops.
Qed.

Lemma accumulate_iter_silent model optimizer scaler mse item evs :
  accumulate_iter model optimizer scaler mse item evs →
  OpPrint ∉ (op_of <$> evs).
Proof.
  intros (guard & output & loss & scaled & ->).
  destruct (decide ((item.1 + 1) `mod` 10 = 0)); by apply not_in_ops.
Qed.

(** X6: a training cell that has at least one (batch, label) pair makes
    no call of [print] while it trains.  The calls of [print] it makes
    are three, after the loops: the text of the loss the loss function
    returned last (in the AMP cells the unscaled loss, not the value
    [scale] returned), the cell's message after a line break, and the
    elapsed-time line.  This is about the calls of the cell, not about
    the standard output as a whole: what the framework writes there on
    its own, as [paddle.amp.decorate] does in the recorded run of the O2
    cell, is no call of the cell. *)
Theorem cells_call_print_for_the_report_only (train_data labels : list Tensor)
    (mse : LossFn) (loss0 : option Tensor) (g : gmap string pyval) (w : W) :
  zip train_data labels ≠ [] →
  reports_last_loss "默认耗时:"
    (o_trace (run (lift th) (baseline_cell train_data labels mse loss0)
                g w))
  ∧ reports_last_loss "使用AMP-O1模式耗时:"
      (o_trace (run (lift th) (amp_o1_cell train_data labels mse loss0)
                  g w))
  ∧ reports_last_loss "使用AMP-O2模式耗时:"
      (o_trace (run (lift th) (amp_o2_cell train_data labels mse loss0)
                  g w))
  ∧ reports_last_loss "使用AMP模式耗时:"
      (o_trace (run (lift th) (accumulate_cell train_data labels mse loss0)
                  g w)).
Proof.
  intros Hne. split; [|split; [|split]].
  - destruct (baseline_cell_shape th train_data labels mse loss0 g w Hne)
      as ([] & _ & model & parameters & optimizer & t0 & iters & loss
          & text & t1 & -> & HF & Hlast).
    rewrite regroup.
    eapply report_intro; [done|done| |exact HF|exact Hlast].
    intros x evs Hx. by eapply baseline_iter_silent.
  - destruct (amp_o1_cell_shape th train_data labels mse loss0 g w Hne)
      as ([] & _ & model & parameters & optimizer & scaler & t0 & iters
          & loss & text & t1 & -> & HF & Hlast).
    rewrite regroup.
    eapply report_intro; [done|done| |exact HF|exact Hlast].
    intros x evs Hx. by eapply amp_iter_silent.
  - destruct (amp_o2_cell_shape th train_data labels mse loss0 g w Hne)
      as ([] & _ & model0 & parameters & optimizer0 & scaler & model
          & optimizer & t0 & iters & loss & text & t1 & -> & HF & Hlast).
    rewrite regroup.
    eapply report_intro; [done|done| |exact HF|exact Hlast].
    intros x evs Hx. by eapply amp_iter_silent.
  - destruct (accumulate_cell_shape th train_data labels mse loss0 g w
                Hne)
      as ([] & _ & model & parameters & optimizer & scaler & t0 & iters
          & loss & text & t1 & -> & HF & Hlast).
    rewrite regroup.
    eapply report_intro; [done|done| |exact HF|exact Hlast].
    intros x evs Hx. by eapply accumulate_iter_silent.
Qed.

End Data.

(** ** Updates of the gradient-accumulation loop *)

Section Updates.
Context `{host : Host} {W : Type} (th : total_handler W).

Lemma count_op_app (o : op) (a b : list event) :
  count_op o (a ++ b) = (count_op o a + count_op o b)%nat.
Proof. unfold count_op. by rewrite filter_app, length_app. Qed.

Lemma count_ops_app (o : op) (a b : list op) :
  length (filter (λ x, x = o) (a ++ b))
  = (length (filter (λ x, x = o) a) + length (filter (λ x, x = o) b))%nat.
Proof. by rewrite filter_app, length_app. Qed.

Lemma updates_in_cons (i : Z) (l : list Z) :
  updates_in (i :: l)
  = ((if decide (((i + 1) `mod` 10)%Z = 0%Z) then 1 else 0)
     + updates_in l)%nat.
Proof.
  unfold updates_in. rewrite filter_cons.
  by destruct (decide ((i + 1) `mod` 10 = 0)).
Qed.

Lemma updates_in_app (l k : list Z) :
  updates_in (l ++ k) = (updates_in l + updates_in k)%nat.
Proof. unfold updates_in. by rewrite filter_app, length_app. Qed.

(** The calls of the iterations with indexes [l]: one [backward] each, one
    [minimize] and one [clear_grad] for each index that is followed by an
    update. *)
Lemma accumulate_ops_counts (l : list Z) :
  length (filter (λ x, x = OpBackward) (concat (accumulate_ops <$> l)))
  = length l
  ∧ length (filter (λ x, x = OpMinimize) (concat (accumulate_ops <$> l)))
    = updates_in l
  ∧ length (filter (λ x, x = OpClearGrad) (concat (accumulate_ops <$> l)))
    = updates_in l.
Proof.
  induction l as [|i l (IH1 & IH2 & IH3)]; [done|].
  rewrite fmap_cons, updates_in_cons, concat_cons.
  rewrite !count_ops_app, IH1, IH2, IH3. unfold accumulate_ops.
  by destruct (decide ((i + 1) `mod` 10 = 0)).
Qed.

Lemma tenth_step (n : Z) :
  0 ≤ n →
  (n + 1) `div` 10
  = n `div` 10 + (if decide ((n + 1) `mod` 10 = 0) then 1 else 0).
Proof.
  intros Hn. destruct (decide ((n + 1) `mod` 10 = 0)) as [Hm|Hm];
    Z.div_mod_to_equations; lia.
Qed.

(** Among the batch indexes [0 .. n-1] there are [n / 10] followed by an
    update. *)
Lemma updates_in_range (n : nat) :
  Z.of_nat (updates_in (seqZ 0 (Z.of_nat n))) = Z.of_nat n `div` 10.
Proof.
  induction n as [|n IH]; [done|].
  rewrite seqZ_S, Z.add_0_l, updates_in_app, updates_in_cons,
    Nat2Z.inj_add, IH.
  replace (Z.of_nat (S n)) with (Z.of_nat n + 1) by lia.
  rewrite tenth_step by lia.
  destruct (decide ((Z.of_nat n + 1) `mod` 10 = 0)); by simpl.
Qed.

Lemma fst_epochs_any {A B : Type} (l : list A) (k : list B) :
  (concat (replicate 5 (enumerate (zip l k)))).*1
  = concat (replicate 5
      (seqZ 0 (Z.of_nat (length l `min` length k)))).
Proof.
  assert ((enumerate (zip l k)).*1
          = seqZ 0 (Z.of_nat (length l `min` length k))) as Hfst.
  { unfold enumerate. by rewrite fst_enumerate_from, length_zip. }
  simpl. by rewrite !fmap_app, Hfst.
Qed.

Lemma epochs_counts (o : op) (l : list Z) :
  length (filter (λ x, x = o)
            (concat (accumulate_ops <$> concat (replicate 5 l))))
  = (5 * length (filter (λ x, x = o) (concat (accumulate_ops <$> l))))%nat.
Proof.
  simpl. rewrite !fmap_app, !concat_app, !count_ops_app. simpl. lia.
Qed.

(** The counts over a whole log of the cell that trained. *)
Lemma trained_counts (o : op) (pre0 post0 : list event)
    (items : list (Z * (Tensor * Tensor))) (iters : list (list event))
    model optimizer scaler mse :
  count_op o pre0 = 0%nat → count_op o post0 = 0%nat →
  Forall2 (accumulate_iter model optimizer scaler mse) items iters →
  count_op o (pre0 ++ concat iters ++ post0)
  = length (filter (λ x, x = o) (concat (accumulate_ops <$> items.*1))).
Proof.
  intros Hpre Hpost HF. rewrite !count_op_app, Hpre, Hpost.
  rewrite count_op_ops.
  rewrite (Forall2_ops (λ x, accumulate_ops x.1)
             (λ x evs (Hx : accumulate_iter model optimizer scaler mse
                              x evs), accumulate_iter_ops Hx) HF).
  change (λ x : Z * (Tensor * Tensor), accumulate_ops x.1)
    with (accumulate_ops ∘ (fst : Z * (Tensor * Tensor) → Z)).
  rewrite list_fmap_compose. lia.
Qed.

Lemma idle_counts (o : op) (ops : list op) msg loss0 g
    (out : outcome W ()) :
  idle_outcome ops msg loss0 g out →
  count_op o (o_trace out)
  = length (filter (λ x, x = o)
              (ops ++ [OpTime]
               ++ match loss0 with
                  | Some _ => [OpTensorStr; OpPrint; OpTime; OpPrint; OpPrint]
                  | None => []
                  end)).
Proof.
  intros (pre & t0 & Hops & _ & _ & Ho). rewrite count_op_ops.
  destruct loss0 as [loss|].
  - destruct Ho as (text & t1 & _ & ->).
    by rewrite fmap_app, Hops, <- app_assoc.
  - destruct Ho as [_ ->]. by rewrite Hops, app_nil_r.
Qed.

(** X7: for lists of any lengths, with [n] the length of the shorter one,
    the gradient-accumulation cell calls [backward] [5 * n] times and
    [scaler.minimize] [5 * (n / 10)] times, each [minimize] with its
    [clear_grad].  With fewer than ten pairs the optimizer never steps. *)
Theorem accumulation_updates_per_epoch (train_data labels : list Tensor)
    (mse : LossFn) (loss0 : option Tensor) (g : gmap string pyval) (w : W) :
  let n := (length train_data `min` length labels)%nat in
  let tr := o_trace (run (lift th)
                       (accumulate_cell train_data labels mse loss0) g w) in
  count_op OpBackward tr = (5 * n)%nat
  ∧ Z.of_nat (count_op OpMinimize tr) = 5 * (Z.of_nat n `div` 10)
  ∧ count_op OpClearGrad tr = count_op OpMinimize tr
  ∧ ((n < 10)%nat → count_op OpMinimize tr = 0%nat).
Proof.
  intros n tr.
  assert (Hcounts :
    count_op OpBackward tr = (5 * n)%nat
    ∧ count_op OpMinimize tr = (5 * updates_in (seqZ 0 (Z.of_nat n)))%nat
    ∧ count_op OpClearGrad tr
      = (5 * updates_in (seqZ 0 (Z.of_nat n)))%nat).
  { destruct (decide (zip train_data labels = [])) as [Hz|Hne].
    - assert (n = 0%nat) as ->.
      { subst n. by rewrite <- length_zip, Hz. }
      pose proof (idle_accumulate th train_data labels mse loss0 g w Hz)
        as Hidle.
      subst tr. rewrite !(idle_counts _ Hidle). by destruct loss0.
    - destruct (accumulate_cell_shape th train_data labels mse loss0 g w
                  Hne)
        as ([] & _ & model & parameters & optimizer & scaler & t0 & iters
            & loss & text & t1 & Ht & HF & _).
      subst tr. rewrite Ht, regroup.
      assert (Hx : ∀ o pre0 post0,
        count_op o pre0 = 0%nat → count_op o post0 = 0%nat →
        count_op o (pre0 ++ concat iters ++ post0)
        = length (filter (λ x, x = o)
                    (concat (accumulate_ops
                       <$> (concat (replicate 5 (enumerate
                              (zip train_data labels)))).*1)))).
      { intros o pre0 post0 Hpre Hpost. by eapply trained_counts. }
      rewrite !Hx by done.
      rewrite fst_epochs_any, !epochs_counts. fold n.
      destruct (accumulate_ops_counts (seqZ 0 (Z.of_nat n)))
        as (-> & -> & ->).
      by rewrite length_seqZ, Nat2Z.id. }
  destruct Hcounts as (Hb & Hm & Hc).
  assert (Hz : Z.of_nat (count_op OpMinimize tr)
               = 5 * (Z.of_nat n `div` 10)).
  { rewrite Hm, Nat2Z.inj_mul, updates_in_range. done. }
  split; [done|]. split; [done|]. split; [congruence|].
  intros Hn. rewrite Z.div_small in Hz by lia. lia.
Qed.

End Updates.

(** ** Code outside [with] blocks *)

Section Halting.
Context `{host : Host}.

Lemma straight_halts {W R : Type} (h : handler W) (p : prog R) g w :
  straight not_exit p → halts_on_failure (run h p g w).
Proof.
  intros Hp pre X c e post Htr.
  pose proof (straight_ops h Hp g w) as Hops.
  destruct (straight_unhandled Hp) as [_ Hrun].
  destruct (Hrun W h g w pre X c e post Htr) as (Hres & _ & _ & Hex).
  split; [|done]. destruct post as [|ev post]; [done|].
  rewrite Htr, fmap_app, fmap_cons, fmap_cons in Hops.
  apply Forall_app in Hops as [_ Hops].
  apply Forall_cons in Hops as [_ Hops].
  apply Forall_cons in Hops as [Hne _].
  apply Forall_cons in Hex as [Hev _]. by destruct Hne.
Qed.

Ltac plain_step :=
  match goal with
  | |- straight _ (_ ≫= _) => apply straight_bind
  | |- straight _ (call _) => apply straight_call; simpl; try done
  | |- straight _ (for_each _ _ _) => apply straight_for_each
  | |- straight _ (comprehension _ _) => apply straight_comprehension
  | |- straight _ (match ?x with _ => _ end) => destruct x
  | |- straight _ ((match ?x with _ => _ end) _) => destruct x
  | |- straight _ _ => constructor; simpl; try done
  | |- ∀ _, _ => intros ?
  end.

Ltac plain_code :=
  unfold baseline_cell, setup_cell, SimpleNet_init, forward, start_timer,
    print_loss, end_timer_and_print;
  repeat plain_step.

(** X8: in the code that is not inside a [with] block (the two timing
    helpers, [SimpleNet.__init__], [forward], the data cell and the
    baseline cell) a call of the framework that raises is the last call
    made, against every framework, and its exception is the result: after
    a layer raises [forward] calls no later layer, and after
    [loss.backward()] raises the baseline cell calls neither
    [optimizer.step()] nor [print]. *)
Theorem code_outside_with_halts_on_failure {W : Type} (h : handler W)
    (g : gmap string pyval) (w : W) (msg : string) (i o : Z)
    (self : SimpleNet) (x : Tensor) (train_data labels : list Tensor)
    (mse : LossFn) (loss0 : option Tensor) :
  halts_on_failure (run h start_timer g w)
  ∧ halts_on_failure (run h (end_timer_and_print msg) g w)
  ∧ halts_on_failure (run h (SimpleNet_init i o) g w)
  ∧ halts_on_failure (run h (forward self x) g w)
  ∧ halts_on_failure (run h setup_cell g w)
  ∧ halts_on_failure (run h (baseline_cell train_data labels mse loss0) g w).
Proof.
  split; [apply straight_halts; plain_code|].
  split; [apply straight_halts; plain_code|].
  split; [apply straight_halts; plain_code|].
  split; [apply straight_halts; plain_code|].
  split; [apply straight_halts; plain_code|].
  apply straight_halts. plain_code.
Qed.

End Halting.

(** ** Shapes through [forward] *)

(** X9: under the shape rule of [Linear], [forward] of the network
    [SimpleNet(i, o)] on a batch with [k] columns fails in [linear1] when
    [k ≠ i], passes [linear1] and [relu1] and fails in [linear2] when
    [k = i] and [o ≠ i], and otherwise completes with a batch of the same
    number of rows and [o] columns. *)
Theorem forward_shape_errors (i o b k : Z)
    (g : gmap string (@pyval shape_host)) :
  let init := run shapes (SimpleNet_init (host := shape_host) i o) g () in
  let r := run shapes (forward (shape_net i o) (b, k)) g () in
  o_result init = inr (shape_net i o)
  ∧ (k ≠ i →
     o_result r = inl (FrameworkError 0)
     ∧ op_of <$> o_trace r = [OpLinearCall])
  ∧ (k = i → o ≠ i →
     o_result r = inl (FrameworkError 0)
     ∧ op_of <$> o_trace r = [OpLinearCall; OpReluCall; OpLinearCall])
  ∧ (k = i → o = i →
     o_result r = inr (b, o)
     ∧ op_of <$> o_trace r
       = [OpLinearCall; OpReluCall; OpLinearCall; OpReluCall;
          OpLinearCall]).
Proof.
  intros init r. subst init r. split; [done|].
  simpl. unfold linear_shape. simpl.
  destruct (decide (k = i)) as [->|Hk]; simpl.
  - split; [done|].
    destruct (decide (o = i)) as [->|Ho]; simpl.
    + split; [done|]. intros _ _. by rewrite decide_True by done.
    + by split.
  - by split.
Qed.

(** ** The further theorems at the counting framework *)

Lemma end_timer_by_start_time_witness :
  o_result (run (lift counting)
              (end_timer_and_print (host := handle_host) "x") ∅ 0%N)
  = inl (NameError "start_time")
  ∧ o_result (run (lift counting)
                (end_timer_and_print (host := handle_host) "x")
                (<["start_time" := VNone]> ∅) 0%N)
    = inl TypeError.
Proof.
  split.
  - destruct (end_timer_by_start_time (host := handle_host) counting "x"
                ∅ 0%N) as (_ & Hunbound & _).
    apply Hunbound. reflexivity.
  - destruct (end_timer_by_start_time (host := handle_host) counting "x"
                (<["start_time" := VNone]> ∅) 0%N) as (_ & _ & Hnone & _).
    apply Hnone. reflexivity.
Defined.

Lemma elapsed_counts_from_last_start_witness :
  o_result restarted_run = inr ().
Proof.
  destruct (@elapsed_counts_from_last_start handle_host N counting
              [CallStart; CallEnd "a"] [CallEnd "b"] "c" ∅ 0%N)
    as (t0 & t1 & _ & Hr & _).
  - by intros [=]%list_elem_of_singleton.
  - exact Hr.
Defined.

Lemma cells_without_data_witness :
  idle_outcome (construction_ops false false) "默认耗时:" None ∅
    idle_baseline_run.
Proof.
  destruct (@cells_without_data handle_host N counting []
              counted_labels counted_mse None ∅ 101%N) as (Hidle & _).
  - reflexivity.
  - exact Hidle.
Defined.

Lemma cells_call_print_for_the_report_only_witness :
  reports_last_loss "使用AMP模式耗时:" counted_accumulation.
Proof.
  destruct (@cells_call_print_for_the_report_only handle_host N counting
              counted_batches counted_labels counted_mse None ∅ 101%N)
    as (_ & _ & _ & Hreport).
  - vm_compute. discriminate.
  - exact Hreport.
Defined.

Lemma accumulation_updates_per_epoch_witness :
  count_op OpMinimize short_accumulation = 0%nat.
Proof.
  destruct (@accumulation_updates_per_epoch handle_host N counting
              (take 9 counted_batches) counted_labels counted_mse None ∅
              101%N) as (_ & _ & _ & Hnone).
  apply Hnone. vm_compute. lia.
Defined.

Lemma forward_shape_errors_witness :
  o_result (run shapes (forward (shape_net 4 4) (8, 3)) ∅ ())
  = inl (FrameworkError 0).
Proof.
  destruct (forward_shape_errors 4 4 8 3 ∅) as (_ & Hfirst & _).
  apply Hfirst. lia.
Defined.
